(** * juliaset-pipeline-launch.py: the launch description of the Julia-set
    benchmark, embedded in Rocq.

    The launch file builds two component containers, one hosting a single
    composite Julia-set node and one hosting a chain of MAX_ITERATION
    nodes, and tags each with a condition on the [config] launch argument.
    The embedding follows the Python text: module constants first, then
    [build_profile_name] and [launch_setup], whose local variables are
    definitions of their own taking the locals they read as arguments. *)

From Stdlib Require Import ZArith Floats Ascii.
From stdpp Require Import base option list list_numbers strings pretty gmap.

Local Open Scope Z_scope.

Set Default Proof Using "Type".

(** ** Python values and exceptions *)

(** The exceptions this file can raise. *)
Inductive exn : Type :=
  | KeyError (key : string)
  | SubstitutionFailure (name : string)
  | InvalidConditionExpressionError (expression : string)
  | OverflowError
  | ValueError.

Inductive result (A : Type) : Type :=
  | Ok (a : A)
  | Err (e : exn).
Arguments Ok {A} a.
Arguments Err {A} e.

#[export] Instance result_ret : MRet result := fun A a => Ok a.
#[export] Instance result_bind : MBind result := fun A B f m =>
  match m with
  | Ok a => f a
  | Err e => Err e
  end.
#[export] Instance result_fmap : FMap result := fun A B f m =>
  match m with
  | Ok a => Ok (f a)
  | Err e => Err e
  end.

(** A parameter value: what the dict literals of the launch file hold. *)
Inductive value : Type :=
  | VBool (b : bool)
  | VStr (s : string)
  | VInt (z : Z)
  | VFloat (f : float).

(** A Python dict with string keys. *)
Abbreviation dict := (gmap string value).

(** [d[key]]: subscription raises KeyError on a missing key. *)
Definition getitem {V : Type} (d : gmap string V) (key : string) : result V :=
  match d !! key with
  | Some v => Ok v
  | None => Err (KeyError key)
  end.

(** [float(n)] for an int: the nearest binary64, ties to even; CPython
    raises OverflowError when the int is too large for a finite float. *)
Definition py_float (n : Z) : result float :=
  let f := SF2Prim (binary_normalize prec emax n 0 false) in
  if is_infinity f then Err OverflowError else Ok f.

(** [int(f)] for a float: truncation towards zero; OverflowError on an
    infinity and ValueError on a NaN. *)
Definition py_int (f : float) : result Z :=
  match Prim2SF f with
  | S754_zero _ => Ok 0
  | S754_infinity _ => Err OverflowError
  | S754_nan => Err ValueError
  | S754_finite s m e =>
      let magnitude := Z.shiftl (Z.pos m) e in
      Ok (if s then - magnitude else magnitude)
  end.

(** [range(start, stop)]. *)
Definition range (start stop : Z) : list Z := seqZ start (stop - start).

(** ** The launch library, as far as this file uses it *)

Record LaunchContext : Type := mkLaunchContext {
  launch_configurations : gmap string string
}.

(** [LaunchConfiguration(name).perform(context)]. *)
Definition LaunchConfiguration_perform (name : string) (context : LaunchContext)
    : result string :=
  match launch_configurations context !! name with
  | Some v => Ok v
  | None => Err (SubstitutionFailure name)
  end.

(** A launch condition; the file only builds [LaunchConfigurationEquals]. *)
Inductive Condition : Type :=
  | LaunchConfigurationEquals (launch_configuration_name expected_value : string).

(** The predicate of [LaunchConfigurationEquals(name, value)]: the launch
    configuration is set and equal to the expected value. *)
Definition Condition_evaluate (c : Condition) (context : LaunchContext) : bool :=
  match c with
  | LaunchConfigurationEquals name expected =>
      bool_decide (launch_configurations context !! name = Some expected)
  end.

Module ComposableNode.
Record t : Type := mk {
  package : string;
  plugin : string;
  name : string;
  parameters : list dict;
  remappings : list (string * string);
  extra_arguments : option (list dict)
}.
End ComposableNode.

Module ComposableNodeContainer.
Record t : Type := mk {
  name : string;
  namespace : string;
  package : string;
  executable : string;
  composable_node_descriptions : list ComposableNode.t;
  prefix : string;
  sigkill_timeout : string;
  sigterm_timeout : string;
  output : string;
  condition : Condition
}.
End ComposableNodeContainer.

Module DeclareLaunchArgument.
Record t : Type := mk {
  name : string;
  default_value : string;
  description : string
}.
End DeclareLaunchArgument.

(** Executing a declaration: a launch configuration the caller has not set
    takes the declared default; one that is set is left as it is. *)
Definition DeclareLaunchArgument_execute (argument : DeclareLaunchArgument.t)
    (context : LaunchContext) : LaunchContext :=
  match launch_configurations context !! DeclareLaunchArgument.name argument with
  | Some _ => context
  | None =>
      mkLaunchContext
        (<[DeclareLaunchArgument.name argument :=
             DeclareLaunchArgument.default_value argument]>
           (launch_configurations context))
  end.

(** The entities of a launch description, as far as this file builds them. *)
Inductive Action : Type :=
  | DeclareLaunchArgumentAction (argument : DeclareLaunchArgument.t)
  | OpaqueFunction
      (function : LaunchContext → result (list ComposableNodeContainer.t)).

(** [LaunchDescription(entities)] and [ld.add_action(action)]. *)
Definition LaunchDescription (initial_entities : list Action) : list Action :=
  initial_entities.
Definition add_action (ld : list Action) (action : Action) : list Action :=
  ld ++ [action].

(** Visiting a launch description in order: declarations update the
    context, an opaque function is called with the context as it stands
    and hands back the containers to launch. *)
Fixpoint LaunchDescription_visit (entities : list Action) (context : LaunchContext)
    : result (list ComposableNodeContainer.t) :=
  match entities with
  | [] => mret []
  | DeclareLaunchArgumentAction argument :: entities =>
      LaunchDescription_visit entities (DeclareLaunchArgument_execute argument context)
  | OpaqueFunction function :: entities =>
      returned ← function context;
      later ← LaunchDescription_visit entities context;
      mret (returned ++ later)
  end.

(** ** Module constants *)

Definition RESOLUTIONS : gmap string (Z * Z) :=
  {[ "16K" := (15360, 8640);
     "8K" := (7680, 4320);
     "4K" := (3840, 2160);
     "1080p" := (1920, 1080);
     "720p" := (1280, 720);
     "480p" := (852, 480) ]}.

Definition IMAGE_HZ : float := 100.0%float.

(** The shipped chain length, [MAX_ITERATION = 50]. *)
Definition MAX_ITERATION_shipped : Z := 50.

Definition launch_args : list DeclareLaunchArgument.t :=
  [ DeclareLaunchArgument.mk "config" "composite"
      "Graph configuration (pipeline|composite)";
    DeclareLaunchArgument.mk "resolution" "1080p"
      "Resolution key (16K|8K|4K|1080p|720p|480p)";
    DeclareLaunchArgument.mk "enable_mt" "false"
      "Enable multithreaded composable containers";
    DeclareLaunchArgument.mk "enable_nsys" "false"
      "Enable nsys profiling";
    DeclareLaunchArgument.mk "nsys_profile_label" ""
      "Label to append for nsys profile output";
    DeclareLaunchArgument.mk "nsys_profile_flags" "--trace=osrt,nvtx,cuda"
      "Flags for nsys profile" ].

(** The context [launch_setup] sees once every declaration has run. *)
Definition declared (context : LaunchContext) : LaunchContext :=
  foldl (fun context argument => DeclareLaunchArgument_execute argument context)
        context launch_args.

(** ** Reading a stage descriptor *)

(** The first rule of a remapping list that renames [from]. *)
Fixpoint assoc (from : string) (rules : list (string * string)) : option string :=
  match rules with
  | [] => None
  | (src, dst) :: rules => if bool_decide (src = from) then Some dst else assoc from rules
  end.

(** The physical channel a node's logical channel [from] is routed to. *)
Definition remap (from : string) (node : ComposableNode.t) : option string :=
  assoc from (ComposableNode.remappings node).

(** Every physical channel a node is wired to by its remappings. *)
Definition channels (node : ComposableNode.t) : list string :=
  (ComposableNode.remappings node).*2.

(** The channels the stages of a list publish on: the capture node's
    "/image" and the other nodes' "/image_out", as remapped. *)
Definition output_routes (nodes : list ComposableNode.t) : list string :=
  omap (remap "/image") nodes ++ omap (remap "/image_out") nodes.

(** Whether a container's condition holds in a launch context. *)
Definition active (context : LaunchContext) (group : ComposableNodeContainer.t) : bool :=
  Condition_evaluate (ComposableNodeContainer.condition group) context.

(** The dict a list of parameter dicts amounts to when a later entry
    overrides an earlier one, and when an earlier one is kept. *)
Definition merge_last_wins (ps : list dict) : dict :=
  foldl (fun acc d => d ∪ acc) ∅ ps.
Definition merge_first_wins (ps : list dict) : dict :=
  foldl (fun acc d => acc ∪ d) ∅ ps.

(** The values a list of parameter dicts holds for one key, in order. *)
Definition occurrences (key : string) (ps : list dict) : list value :=
  omap (fun d : dict => d !! key) ps.

Fixpoint contains_char (c : ascii) (s : string) : bool :=
  match s with
  | EmptyString => false
  | String a s => bool_decide (a = c) || contains_char c s
  end.

Definition is_substring (s t : string) : Prop :=
  ∃ before after, t = before +:+ s +:+ after.

Definition is_suffix (s t : string) : Prop :=
  ∃ before, t = before +:+ s.

(** ** Sample inputs *)

(** A reader of condition expressions that knows the four literals. *)
Definition literal_condition (expression : string) : result bool :=
  if bool_decide (expression = "true") || bool_decide (expression = "1") then Ok true
  else if bool_decide (expression = "false") || bool_decide (expression = "0") then Ok false
  else Err (InvalidConditionExpressionError expression).

Definition context_of (config resolution enable_mt enable_nsys label flags : string)
    : LaunchContext :=
  mkLaunchContext
    {[ "config" := config;
       "resolution" := resolution;
       "enable_mt" := enable_mt;
       "enable_nsys" := enable_nsys;
       "nsys_profile_label" := label;
       "nsys_profile_flags" := flags ]}.

(** The launch arguments at their declared defaults. *)
Definition default_context : LaunchContext :=
  context_of "composite" "1080p" "false" "false" "" "--trace=osrt,nvtx,cuda".

(** A profiled pipeline run at 720p. *)
Definition profiled_pipeline_context : LaunchContext :=
  context_of "pipeline" "720p" "false" "true" "" "--trace=osrt,nvtx,cuda".

Section Launch.

(** [platform.machine()]: the architecture name of the host. *)
Variable platform_machine : string.

(** The launch library's reading of a condition expression as a boolean,
    used by [IfCondition]. *)
Variable evaluate_condition_expression : string → result bool.

(** The chain length, the module constant [MAX_ITERATION]. *)
Variable MAX_ITERATION : Z.

(** [IfCondition(LaunchConfiguration(name)).evaluate(context)]. *)
Definition IfCondition_evaluate (name : string) (context : LaunchContext)
    : result bool :=
  expression ← LaunchConfiguration_perform name context;
  evaluate_condition_expression expression.

(** The module constant [JULIASET_PARAMS]; [float(MAX_ITERATION)] is
    evaluated when the module is loaded. The literal 0.7885 is read, as by
    Python, as the binary64 nearest to it. *)
#[warnings="-inexact-float"]
Definition JULIASET_PARAMS : result (list dict) :=
  max_iterations ← py_float MAX_ITERATION;
  mret [ {[ "min_x_range" := VFloat (-2.5)%float ]};
         {[ "max_x_range" := VFloat 2.5%float ]};
         {[ "min_y_range" := VFloat (-1.5)%float ]};
         {[ "max_y_range" := VFloat 1.5%float ]};
         {[ "start_x" := VFloat 0.7885%float ]};
         {[ "start_y" := VFloat 0.7885%float ]};
         {[ "boundary_radius" := VFloat 25.0%float ]};
         {[ "max_iterations" := VFloat max_iterations ]} ].

(** [build_profile_name]: the f-string, segment by segment. *)
Definition build_profile_name (label config : string) (enable_mt : bool)
    (resolution : string) : result string :=
  hz ← py_int IMAGE_HZ;
  mret ("ros-type_adapt-" +:+ platform_machine
        +:+ (if negb enable_mt then "" else "-mt")
        +:+ "-" +:+ config
        +:+ "-" +:+ resolution
        +:+ "-" +:+ pretty hz +:+ "hz"
        +:+ (if bool_decide (label = "") then "" else "-" +:+ label)).

(** *** The local variables of [launch_setup] *)

Definition container_prefix (enable_nsys : bool)
    (nsys_profile_label config : string) (enable_mt : bool)
    (resolution nsys_profile_flags : string) : result string :=
  if enable_nsys then
    nsys_profile_name ←
      build_profile_name nsys_profile_label config enable_mt resolution;
    mret ("nsys profile " +:+ nsys_profile_flags +:+ " -o " +:+ nsys_profile_name)
  else mret "".

Definition cam2image_node (resolution : string) : result ComposableNode.t :=
  width ← fst <$> getitem RESOLUTIONS resolution;
  height ← snd <$> getitem RESOLUTIONS resolution;
  mret {| ComposableNode.package := "image_tools";
          ComposableNode.name := "cam2image";
          ComposableNode.plugin := "image_tools::Cam2Image";
          ComposableNode.remappings := [("/image", "/image_in")];
          ComposableNode.extra_arguments :=
            Some [ {[ "use_intra_process_comms" := VBool true ]} ];
          ComposableNode.parameters :=
            [ {[ "burger_mode" := VBool true;
                 "history" := VStr "keep_last";
                 "frequency" := VFloat IMAGE_HZ;
                 "width" := VInt width;
                 "height" := VInt height ]} ] |}.

Definition composite_node (JULIASET_PARAMS : list dict) : ComposableNode.t :=
  {| ComposableNode.package := "julia_set_example";
     ComposableNode.plugin := "type_adapt_example::JuliasetNode";
     ComposableNode.name := "juliaset_node";
     ComposableNode.parameters :=
       [ {[ "is_composite" := VBool true ]} ] ++ JULIASET_PARAMS;
     ComposableNode.remappings := [("/image_out", "/composite/image_out")];
     ComposableNode.extra_arguments := None |}.

Definition composite_container (cam2image_node composite_node : ComposableNode.t)
    (enable_mt enable_nsys : bool) (container_prefix : string)
    : ComposableNodeContainer.t :=
  {| ComposableNodeContainer.name := "container";
     ComposableNodeContainer.namespace := "";
     ComposableNodeContainer.package := "rclcpp_components";
     ComposableNodeContainer.executable :=
       "component_container" +:+ (if enable_mt then "_mt" else "");
     ComposableNodeContainer.composable_node_descriptions :=
       [cam2image_node; composite_node];
     ComposableNodeContainer.prefix := container_prefix;
     ComposableNodeContainer.sigkill_timeout := if enable_nsys then "500" else "5";
     ComposableNodeContainer.sigterm_timeout := if enable_nsys then "500" else "5";
     ComposableNodeContainer.output := "both";
     ComposableNodeContainer.condition :=
       LaunchConfigurationEquals "config" "composite" |}.

Definition map_node (JULIASET_PARAMS : list dict) : ComposableNode.t :=
  {| ComposableNode.package := "julia_set_example";
     ComposableNode.plugin := "type_adapt_example::MapNode";
     ComposableNode.name := "map_node";
     ComposableNode.parameters := JULIASET_PARAMS;
     ComposableNode.remappings := [("/image_out", "/image_out0")];
     ComposableNode.extra_arguments := None |}.

(** The node appended by one turn of the [for i in range(1, MAX_ITERATION)]
    loop. *)
Definition juliaset_node (JULIASET_PARAMS : list dict) (i : Z) : ComposableNode.t :=
  {| ComposableNode.package := "julia_set_example";
     ComposableNode.plugin := "type_adapt_example::JuliasetNode";
     ComposableNode.name := "juliaset_node" +:+ pretty i;
     ComposableNode.parameters :=
       [ {[ "is_composite" := VBool false ]}; {[ "proc_id" := VInt i ]} ]
       ++ JULIASET_PARAMS;
     ComposableNode.remappings :=
       [ ("/image_in", "/image_out" +:+ pretty (i - 1));
         ("/image_out", "/image_out" +:+ pretty i) ];
     ComposableNode.extra_arguments := None |}.

Definition colorize_node (JULIASET_PARAMS : list dict) : result ComposableNode.t :=
  max_iterations ← py_float MAX_ITERATION;
  mret {| ComposableNode.package := "julia_set_example";
          ComposableNode.plugin := "type_adapt_example::ColorizeNode";
          ComposableNode.name := "colorize_node";
          ComposableNode.parameters :=
            [ {[ "max_iterations" := VFloat max_iterations ]} ] ++ JULIASET_PARAMS;
          ComposableNode.remappings :=
            [ ("/image_in", "/image_out" +:+ pretty (MAX_ITERATION - 1));
              ("/image_out", "/pipeline/image_out") ];
          ComposableNode.extra_arguments := None |}.

(** The list [pipeline_nodes] as it stands after the last [append]. *)
Definition pipeline_nodes (JULIASET_PARAMS : list dict)
    (cam2image_node : ComposableNode.t) : result (list ComposableNode.t) :=
  let pipeline_nodes := [cam2image_node] in
  let pipeline_nodes := pipeline_nodes ++ [map_node JULIASET_PARAMS] in
  let pipeline_nodes :=
    foldl (fun nodes i => nodes ++ [juliaset_node JULIASET_PARAMS i])
          pipeline_nodes (range 1 MAX_ITERATION) in
  colorize ← colorize_node JULIASET_PARAMS;
  mret (pipeline_nodes ++ [colorize]).

Definition pipeline_container (pipeline_nodes : list ComposableNode.t)
    (enable_mt enable_nsys : bool) (container_prefix : string)
    : ComposableNodeContainer.t :=
  {| ComposableNodeContainer.name := "pipeline_container";
     ComposableNodeContainer.namespace := "";
     ComposableNodeContainer.package := "rclcpp_components";
     ComposableNodeContainer.executable :=
       "component_container" +:+ (if enable_mt then "_mt" else "");
     ComposableNodeContainer.prefix := container_prefix;
     ComposableNodeContainer.sigkill_timeout := if enable_nsys then "500" else "5";
     ComposableNodeContainer.sigterm_timeout := if enable_nsys then "500" else "5";
     ComposableNodeContainer.composable_node_descriptions := pipeline_nodes;
     ComposableNodeContainer.output := "both";
     ComposableNodeContainer.condition :=
       LaunchConfigurationEquals "config" "pipeline" |}.

(** [launch_setup(context)], in the order of the source. The first line
    stands for the module being loaded, which evaluates JULIASET_PARAMS. *)
Definition launch_setup (context : LaunchContext)
    : result (list ComposableNodeContainer.t) :=
  JULIASET_PARAMS ← JULIASET_PARAMS;
  config ← LaunchConfiguration_perform "config" context;
  resolution ← LaunchConfiguration_perform "resolution" context;
  enable_mt ← IfCondition_evaluate "enable_mt" context;
  enable_nsys ← IfCondition_evaluate "enable_nsys" context;
  nsys_profile_label ← LaunchConfiguration_perform "nsys_profile_label" context;
  nsys_profile_flags ← LaunchConfiguration_perform "nsys_profile_flags" context;
  container_prefix ←
    container_prefix enable_nsys nsys_profile_label config enable_mt
                     resolution nsys_profile_flags;
  cam2image_node ← cam2image_node resolution;
  let composite_node := composite_node JULIASET_PARAMS in
  let composite_container :=
    composite_container cam2image_node composite_node
                        enable_mt enable_nsys container_prefix in
  pipeline_nodes ← pipeline_nodes JULIASET_PARAMS cam2image_node;
  let pipeline_container :=
    pipeline_container pipeline_nodes enable_mt enable_nsys container_prefix in
  mret [pipeline_container; composite_container].

(** [generate_launch_description()]. *)
Definition generate_launch_description : list Action :=
  let ld := LaunchDescription (DeclareLaunchArgumentAction <$> launch_args) in
  let ld := add_action ld (OpaqueFunction launch_setup) in
  ld.

(** The profile name as the specification words it: the segments, in
    order; the image rate of 100.0 is 100 in integer hertz. *)
Definition profile_name_segments (label config : string) (enable_mt : bool)
    (resolution : string) : list string :=
  [ "ros-type_adapt-";
    platform_machine;
    if enable_mt then "-mt" else "";
    "-" +:+ config;
    "-" +:+ resolution;
    "-" +:+ "100" +:+ "hz";
    match label with EmptyString => "" | _ => "-" +:+ label end ].

(** ** The error monad *)

Lemma bind_Ok {A B : Type} (m : result A) (f : A → result B) (b : B) :
  m ≫= f = Ok b ↔ ∃ a, m = Ok a ∧ f a = Ok b.
Proof.
  destruct m as [a|e]; simpl; split.
  - intros H. by exists a.
  - by intros (a' & [= <-] & H).
  - discriminate.
  - by intros (a' & [=] & _).
Qed.

Lemma bind_Ok_l {A B : Type} (a : A) (f : A → result B) : Ok a ≫= f = f a.
Proof. reflexivity. Qed.

Lemma mret_Ok {A : Type} (a b : A) : mret (M:=result) a = Ok b → a = b.
Proof. by intros [=]. Qed.

(** Taking a successful run apart, one binding at a time. *)
Ltac run_inv H :=
  repeat match type of H with
  | _ ≫= _ = Ok _ =>
      let a := fresh "a" in let Ha := fresh "H" a in
      apply bind_Ok in H as (a & Ha & H)
  | mret _ = Ok _ => apply mret_Ok in H
  end.

(** ** The shape of the pipeline list *)

Lemma foldl_append {A B : Type} (f : B → A) (l : list B) (init : list A) :
  foldl (fun acc i => acc ++ [f i]) init l = init ++ (f <$> l).
Proof.
  revert init. induction l as [|b l IH]; intros init; simpl.
  - by rewrite app_nil_r.
  - by rewrite IH, <- app_assoc.
Qed.

Lemma range_length (start stop : Z) :
  start ≤ stop → Z.of_nat (length (range start stop)) = stop - start.
Proof. intros ?. unfold range. rewrite length_seqZ. lia. Qed.

Lemma range_lookup (start stop : Z) (k : nat) :
  start + Z.of_nat k < stop → range start stop !! k = Some (start + Z.of_nat k).
Proof. intros ?. unfold range. apply lookup_seqZ_lt. lia. Qed.

Lemma colorize_node_Ok (JP : list dict) (colorize : ComposableNode.t) :
  colorize_node JP = Ok colorize ↔
  ∃ max_iterations, py_float MAX_ITERATION = Ok max_iterations ∧
    colorize =
      {| ComposableNode.package := "julia_set_example";
         ComposableNode.plugin := "type_adapt_example::ColorizeNode";
         ComposableNode.name := "colorize_node";
         ComposableNode.parameters :=
           {[ "max_iterations" := VFloat max_iterations ]} :: JP;
         ComposableNode.remappings :=
           [ ("/image_in", "/image_out" +:+ pretty (MAX_ITERATION - 1));
             ("/image_out", "/pipeline/image_out") ];
         ComposableNode.extra_arguments := None |}.
Proof.
  unfold colorize_node. rewrite bind_Ok.
  split; intros (f & Hf & H); exists f; (split; [done|]).
  - apply mret_Ok in H. by subst colorize.
  - by subst colorize.
Qed.

Lemma pipeline_nodes_Ok (JP : list dict) (cam : ComposableNode.t)
    (nodes : list ComposableNode.t) :
  pipeline_nodes JP cam = Ok nodes ↔
  ∃ colorize, colorize_node JP = Ok colorize ∧
    nodes = [cam; map_node JP]
            ++ (juliaset_node JP <$> range 1 MAX_ITERATION) ++ [colorize].
Proof.
  unfold pipeline_nodes. rewrite bind_Ok, foldl_append.
  split; intros (col & Hcol & H); exists col; (split; [done|]).
  - apply mret_Ok in H. by rewrite <- H, <- app_assoc.
  - by rewrite H, <- app_assoc.
Qed.

Lemma cam2image_node_Ok (resolution : string) (cam : ComposableNode.t) :
  cam2image_node resolution = Ok cam →
  ∃ width height, RESOLUTIONS !! resolution = Some (width, height) ∧
    ComposableNode.plugin cam = "image_tools::Cam2Image" ∧
    ComposableNode.name cam = "cam2image" ∧
    ComposableNode.remappings cam = [("/image", "/image_in")].
Proof.
  unfold cam2image_node, getitem. intros H.
  destruct (RESOLUTIONS !! resolution) as [[w h]|]; [|discriminate].
  simpl in H. apply mret_Ok in H as <-. by exists w, h.
Qed.

(** A successful [launch_setup] has read every launch argument and
    returns the two containers built from the locals. *)
Lemma launch_setup_Ok (context : LaunchContext)
    (r : list ComposableNodeContainer.t) :
  launch_setup context = Ok r ↔
  ∃ JP config resolution enable_mt enable_nsys label flags prefix cam nodes,
    JULIASET_PARAMS = Ok JP ∧
    LaunchConfiguration_perform "config" context = Ok config ∧
    LaunchConfiguration_perform "resolution" context = Ok resolution ∧
    IfCondition_evaluate "enable_mt" context = Ok enable_mt ∧
    IfCondition_evaluate "enable_nsys" context = Ok enable_nsys ∧
    LaunchConfiguration_perform "nsys_profile_label" context = Ok label ∧
    LaunchConfiguration_perform "nsys_profile_flags" context = Ok flags ∧
    container_prefix enable_nsys label config enable_mt resolution flags = Ok prefix ∧
    cam2image_node resolution = Ok cam ∧
    pipeline_nodes JP cam = Ok nodes ∧
    r = [ pipeline_container nodes enable_mt enable_nsys prefix;
          composite_container cam (composite_node JP) enable_mt enable_nsys prefix ].
Proof.
  unfold launch_setup. split.
  - intros H. run_inv H. subst r. repeat eexists; eassumption.
  - intros (JP & config & resolution & mt & nsys & label & flags & prefix
            & cam & nodes & H1 & H2 & H3 & H4 & H5 & H6 & H7 & H8 & H9 & H10 & ->).
    rewrite H1, bind_Ok_l, H2, bind_Ok_l, H3, bind_Ok_l, H4, bind_Ok_l,
      H5, bind_Ok_l, H6, bind_Ok_l, H7, bind_Ok_l, H8, bind_Ok_l,
      H9, bind_Ok_l, H10, bind_Ok_l.
    reflexivity.
Qed.

(** ** Positions in the pipeline list *)

Local Abbreviation chain JP cam colorize :=
  ([cam; map_node JP] ++ (juliaset_node JP <$> range 1 MAX_ITERATION) ++ [colorize]).

Lemma chain_length (JP : list dict) (cam colorize : ComposableNode.t) :
  1 ≤ MAX_ITERATION →
  Z.of_nat (length (chain JP cam colorize)) = MAX_ITERATION + 2.
Proof.
  intros HN. rewrite !length_app, length_fmap. simpl.
  pose proof (range_length 1 MAX_ITERATION HN). lia.
Qed.

Lemma chain_lookup_stage (JP : list dict) (cam colorize : ComposableNode.t) (i : Z) :
  1 ≤ i ≤ MAX_ITERATION - 1 →
  chain JP cam colorize !! Z.to_nat (i + 1) = Some (juliaset_node JP i).
Proof.
  intros Hi. replace (Z.to_nat (i + 1)) with (S (S (Z.to_nat (i - 1)))) by lia.
  simpl. rewrite lookup_app_l.
  - rewrite list_lookup_fmap, range_lookup by lia.
    simpl. f_equal. f_equal. lia.
  - rewrite length_fmap. pose proof (range_length 1 MAX_ITERATION). lia.
Qed.

Lemma chain_lookup_colorize (JP : list dict) (cam colorize : ComposableNode.t) :
  1 ≤ MAX_ITERATION →
  chain JP cam colorize !! Z.to_nat (MAX_ITERATION + 1) = Some colorize.
Proof.
  intros HN.
  replace (Z.to_nat (MAX_ITERATION + 1))
    with (S (S (length (juliaset_node JP <$> range 1 MAX_ITERATION)))).
  - simpl. by rewrite lookup_app_r, Nat.sub_diag.
  - rewrite length_fmap. pose proof (range_length 1 MAX_ITERATION HN). lia.
Qed.

(** Whatever sits at position [k] is the capture node, the map node, the
    loop's node for [i = k - 1], or the colorize node. *)
Lemma chain_lookup_inv (JP : list dict) (cam colorize node : ComposableNode.t)
    (k : nat) :
  1 ≤ MAX_ITERATION →
  chain JP cam colorize !! k = Some node →
  (k = 0%nat ∧ node = cam)
  ∨ (k = 1%nat ∧ node = map_node JP)
  ∨ (2 ≤ Z.of_nat k ≤ MAX_ITERATION ∧ node = juliaset_node JP (Z.of_nat k - 1))
  ∨ (Z.of_nat k = MAX_ITERATION + 1 ∧ node = colorize).
Proof.
  intros HN Hk.
  destruct k as [|[|k]]; simpl in Hk.
  - left. by injection Hk as <-.
  - right; left. by injection Hk as <-.
  - right; right.
    pose proof (range_length 1 MAX_ITERATION HN) as Hlen.
    apply lookup_app_Some in Hk as [Hk|[Hle Hk]].
    + left. apply list_lookup_fmap_Some in Hk as (i & -> & Hi).
      apply lookup_seqZ in Hi as [-> Hi].
      split; [lia|]. f_equal. lia.
    + right. rewrite length_fmap in Hle, Hk.
      apply list_lookup_singleton_Some in Hk as [Hk ->].
      split; [lia|done].
Qed.

Lemma colorize_node_plugin (JP : list dict) (colorize : ComposableNode.t) :
  colorize_node JP = Ok colorize →
  ComposableNode.plugin colorize = "type_adapt_example::ColorizeNode".
Proof. intros (f & _ & ->)%colorize_node_Ok. reflexivity. Qed.

Lemma juliaset_node_plugins (JP : list dict) (l : list Z) :
  ComposableNode.plugin <$> (juliaset_node JP <$> l)
  = replicate (length l) "type_adapt_example::JuliasetNode".
Proof.
  induction l as [|i l IH]; [done|].
  rewrite !fmap_cons, IH. reflexivity.
Qed.

(** The kinds of stage along the pipeline list, in order. *)
Lemma chain_plugins (JP : list dict) (resolution : string)
    (cam colorize : ComposableNode.t) :
  1 ≤ MAX_ITERATION →
  cam2image_node resolution = Ok cam →
  colorize_node JP = Ok colorize →
  ComposableNode.plugin <$> chain JP cam colorize
  = [ "image_tools::Cam2Image"; "type_adapt_example::MapNode" ]
    ++ replicate (Z.to_nat (MAX_ITERATION - 1)) "type_adapt_example::JuliasetNode"
    ++ [ "type_adapt_example::ColorizeNode" ].
Proof.
  intros HN (w & h & _ & Hcam & _)%cam2image_node_Ok Hcol%colorize_node_plugin.
  rewrite !fmap_app, juliaset_node_plugins. simpl. rewrite Hcam, Hcol.
  do 4 f_equal. pose proof (range_length 1 MAX_ITERATION HN). lia.
Qed.

(** C2. In pipeline mode the stage list has MAX_ITERATION + 2 entries for
    every chain length MAX_ITERATION >= 1: the capture stage, the mapping
    stage, MAX_ITERATION - 1 iterative stages and the colorizing stage, in
    that order (52 entries for the shipped 50; capture, map, colorize
    alone for 1). *)
Theorem pipeline_stage_count (context : LaunchContext)
    (r : list ComposableNodeContainer.t) :
  1 ≤ MAX_ITERATION →
  launch_setup context = Ok r →
  ∃ pipeline composite,
    r = [pipeline; composite] ∧
    ComposableNodeContainer.condition pipeline
      = LaunchConfigurationEquals "config" "pipeline" ∧
    Z.of_nat (length (ComposableNodeContainer.composable_node_descriptions pipeline))
      = MAX_ITERATION + 2 ∧
    ComposableNode.plugin
      <$> ComposableNodeContainer.composable_node_descriptions pipeline
    = [ "image_tools::Cam2Image"; "type_adapt_example::MapNode" ]
      ++ replicate (Z.to_nat (MAX_ITERATION - 1)) "type_adapt_example::JuliasetNode"
      ++ [ "type_adapt_example::ColorizeNode" ].
Proof.
  intros HN (JP & config & resolution & mt & nsys & label & flags & prefix
             & cam & nodes & _ & _ & _ & _ & _ & _ & _ & _ & Hcam & Hnodes & ->)
    %launch_setup_Ok.
  apply pipeline_nodes_Ok in Hnodes as (colorize & Hcol & ->).
  eexists _, _. split; [reflexivity|]. split; [reflexivity|]. split.
  - by apply chain_length.
  - by eapply chain_plugins.
Qed.

(** ** Routes along the pipeline list *)

Local Abbreviation image_out i := ("/image_out" +:+ pretty i).

Lemma image_out_inj (i j : Z) : image_out i = image_out j → i = j.
Proof. intros H. apply (inj pretty). by simplify_eq/=. Qed.

Lemma image_out_not_image_in (i : Z) : image_out i ≠ "/image_in".
Proof. simpl. discriminate. Qed.

Lemma image_out_not_pipeline (i : Z) : image_out i ≠ "/pipeline/image_out".
Proof. simpl. discriminate. Qed.

Lemma range_0 : 1 ≤ MAX_ITERATION → range 0 MAX_ITERATION = 0 :: range 1 MAX_ITERATION.
Proof.
  intros HN. unfold range. rewrite seqZ_cons by lia.
  do 2 f_equal. lia.
Qed.

Lemma juliaset_node_outputs (JP : list dict) (l : list Z) :
  omap (remap "/image_out") (juliaset_node JP <$> l) = (fun i => image_out i) <$> l.
Proof.
  induction l as [|i l IH]; [done|].
  rewrite !fmap_cons. simpl. f_equal. exact IH.
Qed.

Lemma juliaset_node_no_image (JP : list dict) (l : list Z) :
  omap (remap "/image") (juliaset_node JP <$> l) = [].
Proof.
  induction l as [|i l IH]; [done|].
  rewrite !fmap_cons. simpl. exact IH.
Qed.

(** One output channel per stage: the capture channel, one numbered
    channel for the map node and for each turn of the loop, and the
    pipeline's outward channel. *)
Lemma chain_output_routes (JP : list dict) (resolution : string)
    (cam colorize : ComposableNode.t) :
  1 ≤ MAX_ITERATION →
  cam2image_node resolution = Ok cam →
  colorize_node JP = Ok colorize →
  output_routes (chain JP cam colorize)
  = "/image_in" :: ((fun i => image_out i) <$> range 0 MAX_ITERATION)
    ++ ["/pipeline/image_out"].
Proof.
  intros HN (w & h & _ & _ & _ & Hcam)%cam2image_node_Ok
    (f & _ & ->)%colorize_node_Ok.
  unfold output_routes. rewrite !omap_app.
  rewrite juliaset_node_outputs, juliaset_node_no_image, range_0 by done.
  unfold remap. simpl. rewrite Hcam. reflexivity.
Qed.

Lemma output_routes_NoDup :
  NoDup ("/image_in" :: ((fun i => image_out i) <$> range 0 MAX_ITERATION)
         ++ ["/pipeline/image_out"]).
Proof.
  apply NoDup_cons. split.
  - intros [(i & Hi & _)%list_elem_of_fmap|[=]%list_elem_of_singleton]%elem_of_app.
    by destruct (image_out_not_image_in i).
  - apply NoDup_app. split; [|split].
    + apply NoDup_fmap_2; [|apply NoDup_seqZ].
      intros i j. apply image_out_inj.
    + intros c (i & -> & _)%list_elem_of_fmap Hc%list_elem_of_singleton.
      by destruct (image_out_not_pipeline i).
    + apply NoDup_singleton.
Qed.

(** The channels of the node at position [k]: the capture channel at 0,
    the numbered channels [k - 2] and [k - 1] further on, the outward
    channel at the end. *)
Lemma chain_channels (JP : list dict) (resolution : string)
    (cam colorize node : ComposableNode.t) (k : nat) (c : string) :
  1 ≤ MAX_ITERATION →
  cam2image_node resolution = Ok cam →
  colorize_node JP = Ok colorize →
  chain JP cam colorize !! k = Some node →
  c ∈ channels node →
  (k = 0%nat ∧ c = "/image_in")
  ∨ (∃ m, c = image_out m ∧ Z.of_nat k - 2 ≤ m ≤ Z.of_nat k - 1)
  ∨ (Z.of_nat k = MAX_ITERATION + 1 ∧ c = "/pipeline/image_out").
Proof.
  intros HN (w & h & _ & _ & _ & Hcam)%cam2image_node_Ok
    (f & _ & ->)%colorize_node_Ok Hk Hc.
  apply (chain_lookup_inv _ _ _ _ _ HN) in Hk as [[-> ->]|[[-> ->]|[[Hk ->]|[Hk ->]]]].
  - left. unfold channels in Hc. rewrite Hcam in Hc.
    by apply list_elem_of_singleton in Hc.
  - right; left. exists 0.
    apply list_elem_of_singleton in Hc as ->. split; [done|lia].
  - right; left. unfold channels in Hc. simpl in Hc.
    apply elem_of_cons in Hc as [->|Hc];
      [|apply list_elem_of_singleton in Hc as ->].
    + exists (Z.of_nat k - 1 - 1). split; [done|lia].
    + exists (Z.of_nat k - 1). split; [done|lia].
  - unfold channels in Hc. simpl in Hc.
    apply elem_of_cons in Hc as [->|Hc];
      [|apply list_elem_of_singleton in Hc as ->].
    + right; left. exists (MAX_ITERATION - 1). split; [done|lia].
    + right; right. done.
Qed.

(** C1. In pipeline mode, for every chain length MAX_ITERATION >= 1: the
    output route of stage i - 1 (the map node for i = 1) is the input
    route of iterative stage i for every i in 1 .. MAX_ITERATION - 1; the
    colorizing stage reads what stage MAX_ITERATION - 1 writes; the
    output routes of the stages are pairwise distinct; and two stages
    that are not neighbours have no channel in common. *)
Theorem pipeline_routes_chain (context : LaunchContext)
    (r : list ComposableNodeContainer.t) :
  1 ≤ MAX_ITERATION →
  launch_setup context = Ok r →
  ∃ pipeline composite nodes,
    r = [pipeline; composite] ∧
    nodes = ComposableNodeContainer.composable_node_descriptions pipeline ∧
    (∀ i, 1 ≤ i ≤ MAX_ITERATION - 1 →
       ∃ previous stage,
         nodes !! Z.to_nat i = Some previous ∧
         nodes !! Z.to_nat (i + 1) = Some stage ∧
         ComposableNode.name stage = "juliaset_node" +:+ pretty i ∧
         remap "/image_out" previous = Some (image_out (i - 1)) ∧
         remap "/image_in" stage = remap "/image_out" previous) ∧
    (∃ last colorize,
       nodes !! Z.to_nat MAX_ITERATION = Some last ∧
       nodes !! Z.to_nat (MAX_ITERATION + 1) = Some colorize ∧
       ComposableNode.name colorize = "colorize_node" ∧
       remap "/image_out" last = Some (image_out (MAX_ITERATION - 1)) ∧
       remap "/image_in" colorize = remap "/image_out" last) ∧
    length (output_routes nodes) = length nodes ∧
    NoDup (output_routes nodes) ∧
    (∀ j k a b c,
       nodes !! j = Some a → nodes !! k = Some b → (j + 1 < k)%nat →
       c ∈ channels a → c ∉ channels b).
Proof.
  intros HN (JP & config & resolution & mt & nsys & label & flags & prefix
             & cam & nodes & _ & _ & _ & _ & _ & _ & _ & _ & Hcam & Hnodes & ->)
    %launch_setup_Ok.
  apply pipeline_nodes_Ok in Hnodes as (colorize & Hcol & ->).
  eexists _, _, _. split; [reflexivity|]. split; [reflexivity|].
  cbn [ComposableNodeContainer.composable_node_descriptions pipeline_container].
  repeat split.
  - intros i Hi.
    assert (i = 1 ∨ 2 ≤ i) as [->|Hi2] by lia.
    + exists (map_node JP), (juliaset_node JP 1).
      split; [done|]. split; [by apply (chain_lookup_stage JP cam colorize 1)|].
      done.
    + exists (juliaset_node JP (i - 1)), (juliaset_node JP i).
      split.
      { pose proof (chain_lookup_stage JP cam colorize (i - 1)) as Hprev.
        replace (i - 1 + 1) with i in Hprev by lia. apply Hprev. lia. }
      split; [by apply chain_lookup_stage|]. done.
  - assert (MAX_ITERATION = 1 ∨ 2 ≤ MAX_ITERATION) as [HN1|HN2] by lia.
    + exists (map_node JP), colorize.
      pose proof (chain_lookup_colorize JP cam colorize HN) as Hlast.
      apply colorize_node_Ok in Hcol as (f & _ & Hcol).
      rewrite HN1 in Hlast |- *. split; [done|]. split; [done|].
      rewrite Hcol, HN1. done.
    + exists (juliaset_node JP (MAX_ITERATION - 1)), colorize.
      split.
      { pose proof (chain_lookup_stage JP cam colorize (MAX_ITERATION - 1)) as Hprev.
        replace (MAX_ITERATION - 1 + 1) with MAX_ITERATION in Hprev by lia.
        apply Hprev. lia. }
      split; [by apply chain_lookup_colorize|].
      apply colorize_node_Ok in Hcol as (f & _ & ->). done.
  - erewrite chain_output_routes by done.
    pose proof (chain_length JP cam colorize HN) as Hlen.
    pose proof (range_length 0 MAX_ITERATION) as Hr.
    simpl. rewrite length_app, length_fmap. simpl. simpl in Hlen. lia.
  - erewrite chain_output_routes by done. apply output_routes_NoDup.
  - intros j k a b c Ha Hb Hjk Hca Hcb.
    pose proof (chain_length JP cam colorize HN) as Hlen.
    apply lookup_lt_Some in Hb as Hklt.
    apply (chain_channels _ _ _ _ _ _ _ HN Hcam Hcol Ha)
      in Hca as [[-> ->]|[(m & -> & Hm)|[Hj ->]]];
      apply (chain_channels _ _ _ _ _ _ _ HN Hcam Hcol Hb)
        in Hcb as [[-> Hc]|[(m' & Hc & Hm')|[Hk Hc]]];
      try lia; try discriminate Hc.
    apply image_out_inj in Hc. lia.
Qed.

(** ** Naming of the stages *)

Lemma juliaset_node_name_inj (JP JP' : list dict) (i j : Z) :
  ComposableNode.name (juliaset_node JP i) = ComposableNode.name (juliaset_node JP' j) →
  i = j.
Proof. simpl. intros H. apply (inj pretty). by simplify_eq/=. Qed.

Lemma chain_names_NoDup (JP : list dict) (resolution : string)
    (cam colorize : ComposableNode.t) :
  cam2image_node resolution = Ok cam →
  colorize_node JP = Ok colorize →
  NoDup (ComposableNode.name <$> chain JP cam colorize).
Proof.
  intros (w & h & _ & _ & Hcam & _)%cam2image_node_Ok (f & _ & ->)%colorize_node_Ok.
  rewrite !fmap_app, <- list_fmap_compose. simpl. rewrite Hcam.
  apply NoDup_cons. split.
  { intros [[=]|[(i & [=] & _)%list_elem_of_fmap|[=]%list_elem_of_singleton]
                  %elem_of_app]%elem_of_cons. }
  apply NoDup_cons. split.
  { intros [(i & [=] & _)%list_elem_of_fmap|[=]%list_elem_of_singleton]%elem_of_app. }
  apply NoDup_app. split; [|split].
  - apply NoDup_fmap_2; [|apply NoDup_seqZ].
    intros i j. apply (juliaset_node_name_inj JP JP).
  - intros c (i & -> & _)%list_elem_of_fmap [=]%list_elem_of_singleton.
  - apply NoDup_singleton.
Qed.

(** C4. Iterative stage i of the pipeline, for i in 1 .. MAX_ITERATION - 1,
    is named by its index, and the naming is injective, so that no name
    occurs twice in the group; it carries is_composite = false and
    proc_id = i followed by the shared Julia-set parameters, reads from
    channel i - 1 and writes to channel i. *)
Theorem pipeline_iterative_stage (context : LaunchContext)
    (r : list ComposableNodeContainer.t) :
  launch_setup context = Ok r →
  ∃ pipeline composite JP,
    r = [pipeline; composite] ∧
    JULIASET_PARAMS = Ok JP ∧
    (∀ i, 1 ≤ i ≤ MAX_ITERATION - 1 →
       ∃ stage,
         ComposableNodeContainer.composable_node_descriptions pipeline
           !! Z.to_nat (i + 1) = Some stage ∧
         stage = juliaset_node JP i ∧
         ComposableNode.plugin stage = "type_adapt_example::JuliasetNode" ∧
         ComposableNode.name stage = "juliaset_node" +:+ pretty i ∧
         ComposableNode.parameters stage
           = {[ "is_composite" := VBool false ]} :: {[ "proc_id" := VInt i ]} :: JP ∧
         remap "/image_in" stage = Some ("/image_out" +:+ pretty (i - 1)) ∧
         remap "/image_out" stage = Some ("/image_out" +:+ pretty i)) ∧
    (∀ i j,
       ComposableNode.name (juliaset_node JP i) = ComposableNode.name (juliaset_node JP j) →
       i = j) ∧
    NoDup (ComposableNode.name
             <$> ComposableNodeContainer.composable_node_descriptions pipeline).
Proof.
  intros (JP & config & resolution & mt & nsys & label & flags & prefix
          & cam & nodes & HJP & _ & _ & _ & _ & _ & _ & _ & Hcam & Hnodes & ->)
    %launch_setup_Ok.
  apply pipeline_nodes_Ok in Hnodes as (colorize & Hcol & ->).
  exists (pipeline_container (chain JP cam colorize) mt nsys prefix),
    (composite_container cam (composite_node JP) mt nsys prefix), JP.
  split; [reflexivity|]. split; [exact HJP|].
  cbn [ComposableNodeContainer.composable_node_descriptions pipeline_container].
  split; [|split].
  - intros i Hi. exists (juliaset_node JP i).
    split; [by apply chain_lookup_stage|]. done.
  - apply juliaset_node_name_inj.
  - by eapply chain_names_NoDup.
Qed.

(** ** The composite group *)

(** C5. Whatever the chain length, the composite container holds two
    stages, the capture node and then the composite node; the composite
    node carries is_composite = true followed by the shared Julia-set
    parameters, and writes to a channel of its own, which is not the
    channel the pipeline's last stage writes to. *)
Theorem composite_stage_list (context : LaunchContext)
    (r : list ComposableNodeContainer.t) :
  launch_setup context = Ok r →
  ∃ pipeline composite capture stage colorize JP,
    r = [pipeline; composite] ∧
    ComposableNodeContainer.condition composite
      = LaunchConfigurationEquals "config" "composite" ∧
    ComposableNodeContainer.composable_node_descriptions composite
      = [capture; stage] ∧
    ComposableNode.plugin capture = "image_tools::Cam2Image" ∧
    ComposableNode.plugin stage = "type_adapt_example::JuliasetNode" ∧
    JULIASET_PARAMS = Ok JP ∧
    ComposableNode.parameters stage = {[ "is_composite" := VBool true ]} :: JP ∧
    remap "/image_out" stage = Some "/composite/image_out" ∧
    last (ComposableNodeContainer.composable_node_descriptions pipeline)
      = Some colorize ∧
    remap "/image_out" colorize = Some "/pipeline/image_out" ∧
    remap "/image_out" stage ≠ remap "/image_out" colorize.
Proof.
  intros (JP & config & resolution & mt & nsys & label & flags & prefix
          & cam & nodes & HJP & _ & _ & _ & _ & _ & _ & _ & Hcam & Hnodes & ->)
    %launch_setup_Ok.
  apply pipeline_nodes_Ok in Hnodes as (colorize & Hcol & ->).
  apply cam2image_node_Ok in Hcam as (w & h & _ & Hcam & _).
  apply colorize_node_Ok in Hcol as (f & _ & Hcol).
  exists (pipeline_container (chain JP cam colorize) mt nsys prefix),
    (composite_container cam (composite_node JP) mt nsys prefix),
    cam, (composite_node JP), colorize, JP.
  do 8 (split; [done|]).
  cbn [ComposableNodeContainer.composable_node_descriptions pipeline_container].
  split; [by rewrite app_assoc, last_snoc|].
  rewrite Hcol. done.
Qed.

(** ** Activation of the two groups *)

(** C3. When [config] is pipeline or composite exactly one of the two
    containers has a condition that holds, the one of that name; for any
    other value of [config] neither condition holds. *)
Theorem exactly_one_group_active (context : LaunchContext)
    (r : list ComposableNodeContainer.t) :
  launch_setup context = Ok r →
  ∃ pipeline composite config,
    r = [pipeline; composite] ∧
    LaunchConfiguration_perform "config" context = Ok config ∧
    (config = "pipeline" →
       active context pipeline = true ∧ active context composite = false) ∧
    (config = "composite" →
       active context pipeline = false ∧ active context composite = true) ∧
    (config ∈ ["pipeline"; "composite"] →
       length (filter (fun group => active context group = true) r) = 1%nat) ∧
    (config ∉ ["pipeline"; "composite"] →
       active context pipeline = false ∧ active context composite = false ∧
       filter (fun group => active context group = true) r = []).
Proof.
  intros (JP & config & resolution & mt & nsys & label & flags & prefix
          & cam & nodes & _ & Hconfig & _ & _ & _ & _ & _ & _ & _ & _ & ->)
    %launch_setup_Ok.
  eexists _, _, config. split; [reflexivity|]. split; [exact Hconfig|].
  unfold LaunchConfiguration_perform in Hconfig.
  destruct (launch_configurations context !! "config") as [v|] eqn:Hv; [|done].
  injection Hconfig as ->.
  assert (active context (pipeline_container nodes mt nsys prefix)
          = bool_decide (config = "pipeline")) as Hp.
  { unfold active. simpl. rewrite Hv.
    apply bool_decide_ext. split; [by intros [=]|by intros ->]. }
  assert (active context (composite_container cam (composite_node JP) mt nsys prefix)
          = bool_decide (config = "composite")) as Hc.
  { unfold active. simpl. rewrite Hv.
    apply bool_decide_ext. split; [by intros [=]|by intros ->]. }
  rewrite !filter_cons, filter_nil, Hp, Hc.
  split; [by intros ->|]. split; [by intros ->|]. split.
  - intros [->|[->|[]%elem_of_nil]%elem_of_cons]%elem_of_cons; done.
  - intros Hout.
    assert (config ≠ "pipeline") as Hnp by (intros ->; apply Hout; compute_done).
    assert (config ≠ "composite") as Hnc by (intros ->; apply Hout; compute_done).
    rewrite !bool_decide_eq_false_2 by done. done.
Qed.

(** ** The profile name *)

Lemma py_int_IMAGE_HZ : py_int IMAGE_HZ = Ok 100.
Proof. vm_compute. reflexivity. Qed.

(** The f-string of [build_profile_name] with its conditionals read as
    tests on the flag and on the emptiness of the label. *)
Lemma build_profile_name_eq (label config : string) (enable_mt : bool)
    (resolution : string) :
  build_profile_name label config enable_mt resolution
  = Ok ("ros-type_adapt-" +:+ platform_machine
        +:+ (if enable_mt then "-mt" else "")
        +:+ "-" +:+ config +:+ "-" +:+ resolution +:+ "-100hz"
        +:+ match label with EmptyString => "" | _ => "-" +:+ label end).
Proof.
  unfold build_profile_name. rewrite py_int_IMAGE_HZ, bind_Ok_l.
  destruct enable_mt, label; reflexivity.
Qed.

Lemma string_app_nil (b : string) : "" +:+ b = b.
Proof. reflexivity. Qed.

Lemma string_app_cons (x : ascii) (a b : string) :
  String x a +:+ b = String x (a +:+ b).
Proof. reflexivity. Qed.

Lemma string_app_assoc (a b c : string) : (a +:+ b) +:+ c = a +:+ b +:+ c.
Proof.
  induction a as [|x a IH]; [done|].
  by rewrite !string_app_cons, IH.
Qed.

Lemma string_app_length (a b : string) :
  String.length (a +:+ b) = (String.length a + String.length b)%nat.
Proof.
  induction a as [|x a IH]; [done|].
  rewrite string_app_cons. simpl. by rewrite IH.
Qed.

(** C6. The profile name is the concatenation, in order, of the fixed
    prefix, the architecture name, the threading suffix (there exactly
    when the flag is set), the topology mode, the resolution key, the
    image rate as integer hertz, and the label suffix (there exactly when
    the label is not empty). For enable_mt false, config pipeline,
    resolution 720p and an empty label the name is the prefix, the
    architecture name and "-pipeline-720p-100hz": it holds the
    architecture name, pipeline, 720p and 100hz, no -mt segment and
    nothing after the rate. *)
Theorem build_profile_name_segments :
  (∀ label config enable_mt resolution,
     build_profile_name label config enable_mt resolution
     = Ok (String.concat "" (profile_name_segments label config enable_mt resolution))) ∧
  (∀ label config resolution,
     nth 2 (profile_name_segments label config true resolution) "" = "-mt" ∧
     nth 2 (profile_name_segments label config false resolution) "" = "") ∧
  (∀ label config enable_mt resolution,
     nth 6 (profile_name_segments label config enable_mt resolution) "" = ""
     ↔ label = "") ∧
  (∃ name,
     build_profile_name "" "pipeline" false "720p" = Ok name ∧
     name = "ros-type_adapt-" +:+ platform_machine +:+ "-pipeline-720p-100hz" ∧
     is_substring platform_machine name ∧
     is_substring "pipeline" name ∧
     is_substring "720p" name ∧
     is_substring "100hz" name ∧
     is_suffix "100hz" name).
Proof.
  split; [|split; [|split]].
  - intros label config mt resolution. rewrite build_profile_name_eq.
    destruct mt, label; reflexivity.
  - intros label config resolution. split; reflexivity.
  - intros label config mt resolution. destruct label; simpl; [done|].
    split; discriminate.
  - eexists. split; [apply build_profile_name_eq|]. cbn [negb].
    split; [reflexivity|]. repeat split.
    + exists "ros-type_adapt-", "-pipeline-720p-100hz". reflexivity.
    + exists ("ros-type_adapt-" +:+ platform_machine +:+ "-"), "-720p-100hz".
      rewrite !string_app_assoc. reflexivity.
    + exists ("ros-type_adapt-" +:+ platform_machine +:+ "-pipeline-"), "-100hz".
      rewrite !string_app_assoc. reflexivity.
    + exists ("ros-type_adapt-" +:+ platform_machine +:+ "-pipeline-720p-"), "".
      rewrite !string_app_assoc. reflexivity.
    + exists ("ros-type_adapt-" +:+ platform_machine +:+ "-pipeline-720p-").
      rewrite !string_app_assoc. reflexivity.
Qed.

(** A string without the separator ends where the first separator is. *)
Lemma dash_split (a b c d : string) :
  contains_char "-" a = false → contains_char "-" c = false →
  a +:+ "-" +:+ b = c +:+ "-" +:+ d → a = c ∧ b = d.
Proof.
  revert c. induction a as [|x a IH]; intros [|y c] Ha Hc H;
    rewrite ?string_app_cons, ?string_app_nil in H; simpl in Ha, Hc.
  - by injection H as ->.
  - injection H as <- _. by rewrite bool_decide_eq_true_2 in Hc.
  - injection H as -> _. by rewrite bool_decide_eq_true_2 in Ha.
  - injection H as -> H.
    apply orb_false_elim in Ha as [_ Ha]. apply orb_false_elim in Hc as [_ Hc].
    destruct (IH c Ha Hc H) as [-> ->]. done.
Qed.

(** The segments between the architecture name and the rate determine
    the flag, the mode and the key. *)
Lemma profile_name_middle (config1 config2 : string) (enable_mt1 enable_mt2 : bool)
    (resolution1 resolution2 rest : string) :
  contains_char "-" config1 = false → contains_char "-" config2 = false →
  contains_char "-" resolution1 = false → contains_char "-" resolution2 = false →
  (if enable_mt1 then "-mt" else "") +:+ "-" +:+ config1
    +:+ "-" +:+ resolution1 +:+ "-" +:+ rest
  = (if enable_mt2 then "-mt" else "") +:+ "-" +:+ config2
    +:+ "-" +:+ resolution2 +:+ "-" +:+ rest →
  config1 = config2 ∧ enable_mt1 = enable_mt2 ∧ resolution1 = resolution2.
Proof.
  intros Hc1 Hc2 Hr1 Hr2 H.
  destruct enable_mt1, enable_mt2;
    destruct (dash_split "" _ "" _ eq_refl eq_refl H) as [_ H0]; clear H.
  - destruct (dash_split "mt" _ "mt" _ eq_refl eq_refl H0) as [_ H1].
    destruct (dash_split config1 _ config2 _ Hc1 Hc2 H1) as [-> H2].
    destruct (dash_split resolution1 _ resolution2 _ Hr1 Hr2 H2) as [-> _]. done.
  - exfalso.
    destruct (dash_split "mt" _ config2 _ eq_refl Hc2 H0) as [_ H1].
    destruct (dash_split config1 _ resolution2 _ Hc1 Hr2 H1) as [_ H2].
    apply (f_equal String.length) in H2.
    rewrite !string_app_length in H2. simpl in H2. lia.
  - exfalso.
    destruct (dash_split config1 _ "mt" _ Hc1 eq_refl H0) as [_ H1].
    destruct (dash_split resolution1 _ config2 _ Hr1 Hc2 H1) as [_ H2].
    apply (f_equal String.length) in H2.
    rewrite !string_app_length in H2. simpl in H2. lia.
  - destruct (dash_split config1 _ config2 _ Hc1 Hc2 H0) as [-> H1].
    destruct (dash_split resolution1 _ resolution2 _ Hr1 Hr2 H1) as [-> _]. done.
Qed.

(** C7, as amended. Two calls with the same label, whose topology modes
    and resolution keys hold no "-", return the same name only when the
    topology mode, the threading flag and the resolution key agree. *)
Theorem build_profile_name_injective (label config1 config2 : string)
    (enable_mt1 enable_mt2 : bool) (resolution1 resolution2 : string) :
  contains_char "-" config1 = false → contains_char "-" config2 = false →
  contains_char "-" resolution1 = false → contains_char "-" resolution2 = false →
  build_profile_name label config1 enable_mt1 resolution1
  = build_profile_name label config2 enable_mt2 resolution2 →
  config1 = config2 ∧ enable_mt1 = enable_mt2 ∧ resolution1 = resolution2.
Proof.
  intros Hc1 Hc2 Hr1 Hr2. rewrite !build_profile_name_eq. intros [= H].
  apply (inj (String.app platform_machine)) in H.
  by apply (profile_name_middle config1 config2 enable_mt1 enable_mt2
              resolution1 resolution2
              ("100hz" +:+ match label with EmptyString => "" | _ => "-" +:+ label end)).
Qed.

(** ** Profiling: wrapper command and grace periods *)

Lemma container_prefix_eq (enable_nsys : bool) (label config : string)
    (enable_mt : bool) (resolution flags name : string) :
  build_profile_name label config enable_mt resolution = Ok name →
  container_prefix enable_nsys label config enable_mt resolution flags
  = Ok (if enable_nsys then "nsys profile " +:+ flags +:+ " -o " +:+ name else "").
Proof.
  intros Hname. unfold container_prefix.
  destruct enable_nsys; [|reflexivity]. by rewrite Hname.
Qed.

(** C8. For both containers of a successful launch: the wrapper command
    is the nsys invocation, built from the flags and the profile name,
    exactly when profiling is enabled and is empty otherwise; and both
    grace periods are the long value 500 exactly when profiling is
    enabled and the short value 5 otherwise. *)
Theorem profiling_wrapper_and_grace (context : LaunchContext)
    (r : list ComposableNodeContainer.t)
    (label config resolution flags name : string) (enable_mt enable_nsys : bool) :
  launch_setup context = Ok r →
  LaunchConfiguration_perform "config" context = Ok config →
  LaunchConfiguration_perform "resolution" context = Ok resolution →
  IfCondition_evaluate "enable_mt" context = Ok enable_mt →
  IfCondition_evaluate "enable_nsys" context = Ok enable_nsys →
  LaunchConfiguration_perform "nsys_profile_label" context = Ok label →
  LaunchConfiguration_perform "nsys_profile_flags" context = Ok flags →
  build_profile_name label config enable_mt resolution = Ok name →
  length r = 2%nat ∧
  ∀ group, group ∈ r →
    (ComposableNodeContainer.prefix group
       = "nsys profile " +:+ flags +:+ " -o " +:+ name ↔ enable_nsys = true) ∧
    (ComposableNodeContainer.prefix group = "" ↔ enable_nsys = false) ∧
    (ComposableNodeContainer.sigkill_timeout group = "500" ↔ enable_nsys = true) ∧
    (ComposableNodeContainer.sigkill_timeout group = "5" ↔ enable_nsys = false) ∧
    (ComposableNodeContainer.sigterm_timeout group = "500" ↔ enable_nsys = true) ∧
    (ComposableNodeContainer.sigterm_timeout group = "5" ↔ enable_nsys = false).
Proof.
  intros (JP & config' & resolution' & mt & nsys & label' & flags' & prefix
          & cam & nodes & _ & Hc & Hr & Hmt & Hnsys & Hl & Hf & Hprefix & _ & _ & ->)
    %launch_setup_Ok Hc' Hr' Hmt' Hnsys' Hl' Hf' Hname.
  rewrite Hc in Hc'. rewrite Hr in Hr'. rewrite Hmt in Hmt'.
  rewrite Hnsys in Hnsys'. rewrite Hl in Hl'. rewrite Hf in Hf'.
  simplify_eq. rewrite (container_prefix_eq _ _ _ _ _ _ _ Hname) in Hprefix.
  injection Hprefix as <-.
  split; [reflexivity|].
  intros group [->|[->|[]%elem_of_nil]%elem_of_cons]%elem_of_cons;
    destruct enable_nsys; simpl; repeat split; done.
Qed.

(** ** Resolution lookup *)

Lemma RESOLUTIONS_miss (resolution : string) :
  resolution ∉ ["16K"; "8K"; "4K"; "1080p"; "720p"; "480p"] →
  RESOLUTIONS !! resolution = None.
Proof.
  intros Hout. unfold RESOLUTIONS.
  repeat (rewrite lookup_insert_ne; [|intros <-; apply Hout; compute_done]).
  apply lookup_singleton_ne. intros <-. apply Hout. compute_done.
Qed.

(** C9. The table gives (1920, 1080) for 1080p and (3840, 2160) for 4K.
    For a key outside 16K, 8K, 4K, 1080p, 720p, 480p the lookup raises
    KeyError: building the capture node fails with it, and so does
    [launch_setup] as soon as the launch arguments have been read, with
    no containers returned. *)
Theorem resolution_lookup :
  getitem RESOLUTIONS "1080p" = Ok (1920, 1080) ∧
  getitem RESOLUTIONS "4K" = Ok (3840, 2160) ∧
  ∀ resolution,
    resolution ∉ ["16K"; "8K"; "4K"; "1080p"; "720p"; "480p"] →
    getitem RESOLUTIONS resolution = Err (KeyError resolution) ∧
    cam2image_node resolution = Err (KeyError resolution) ∧
    ∀ context JP config enable_mt enable_nsys label flags,
      JULIASET_PARAMS = Ok JP →
      LaunchConfiguration_perform "config" context = Ok config →
      LaunchConfiguration_perform "resolution" context = Ok resolution →
      IfCondition_evaluate "enable_mt" context = Ok enable_mt →
      IfCondition_evaluate "enable_nsys" context = Ok enable_nsys →
      LaunchConfiguration_perform "nsys_profile_label" context = Ok label →
      LaunchConfiguration_perform "nsys_profile_flags" context = Ok flags →
      launch_setup context = Err (KeyError resolution).
Proof.
  split; [by vm_compute|]. split; [by vm_compute|].
  intros resolution Hout%RESOLUTIONS_miss.
  assert (getitem RESOLUTIONS resolution = Err (KeyError resolution)) as Hget.
  { unfold getitem. by rewrite Hout. }
  assert (cam2image_node resolution = Err (KeyError resolution)) as Hcam.
  { unfold cam2image_node. by rewrite Hget. }
  split; [done|]. split; [done|].
  intros context JP config mt nsys label flags HJP Hc Hr Hmt Hnsys Hl Hf.
  unfold launch_setup.
  rewrite HJP, bind_Ok_l, Hc, bind_Ok_l, Hr, bind_Ok_l, Hmt, bind_Ok_l,
    Hnsys, bind_Ok_l, Hl, bind_Ok_l, Hf, bind_Ok_l.
  rewrite (container_prefix_eq _ _ _ _ _ _ _
             (build_profile_name_eq label config mt resolution)), bind_Ok_l, Hcam.
  reflexivity.
Qed.

(** ** The colorize node's parameters *)

#[warnings="-inexact-float"]
Lemma JULIASET_PARAMS_Ok (JP : list dict) :
  JULIASET_PARAMS = Ok JP ↔
  ∃ max_iterations, py_float MAX_ITERATION = Ok max_iterations ∧
    JP = [ {[ "min_x_range" := VFloat (-2.5)%float ]};
           {[ "max_x_range" := VFloat 2.5%float ]};
           {[ "min_y_range" := VFloat (-1.5)%float ]};
           {[ "max_y_range" := VFloat 1.5%float ]};
           {[ "start_x" := VFloat 0.7885%float ]};
           {[ "start_y" := VFloat 0.7885%float ]};
           {[ "boundary_radius" := VFloat 25.0%float ]};
           {[ "max_iterations" := VFloat max_iterations ]} ].
Proof.
  unfold JULIASET_PARAMS. rewrite bind_Ok.
  split; intros (f & Hf & H); exists f; (split; [done|]).
  - apply mret_Ok in H. by subst JP.
  - by subst JP.
Qed.

Lemma py_float_shipped : py_float MAX_ITERATION_shipped = Ok 50%float.
Proof. vm_compute. reflexivity. Qed.

(** C10. The colorize node's parameter list holds max_iterations twice,
    in its leading dict and in the shared Julia-set parameters that
    follow; both hold float(MAX_ITERATION), which is 50.0 for the shipped
    constant, so the value in force is the same whether the later or the
    earlier entry wins. *)
Theorem colorize_max_iterations (context : LaunchContext)
    (r : list ComposableNodeContainer.t) :
  launch_setup context = Ok r →
  ∃ pipeline composite colorize JP max_iterations,
    r = [pipeline; composite] ∧
    last (ComposableNodeContainer.composable_node_descriptions pipeline)
      = Some colorize ∧
    ComposableNode.plugin colorize = "type_adapt_example::ColorizeNode" ∧
    JULIASET_PARAMS = Ok JP ∧
    py_float MAX_ITERATION = Ok max_iterations ∧
    ComposableNode.parameters colorize
      = {[ "max_iterations" := VFloat max_iterations ]} :: JP ∧
    occurrences "max_iterations" JP = [VFloat max_iterations] ∧
    occurrences "max_iterations" (ComposableNode.parameters colorize)
      = [VFloat max_iterations; VFloat max_iterations] ∧
    merge_last_wins (ComposableNode.parameters colorize) !! "max_iterations"
      = Some (VFloat max_iterations) ∧
    merge_first_wins (ComposableNode.parameters colorize) !! "max_iterations"
      = Some (VFloat max_iterations) ∧
    (MAX_ITERATION = MAX_ITERATION_shipped → max_iterations = 50.0%float).
Proof.
  intros (JP & config & resolution & mt & nsys & label & flags & prefix
          & cam & nodes & HJP & _ & _ & _ & _ & _ & _ & _ & Hcam & Hnodes & ->)
    %launch_setup_Ok.
  apply pipeline_nodes_Ok in Hnodes as (colorize & Hcol & ->).
  apply colorize_node_Ok in Hcol as (f & Hf & Hcol).
  exists (pipeline_container (chain JP cam colorize) mt nsys prefix),
    (composite_container cam (composite_node JP) mt nsys prefix),
    colorize, JP, f.
  split; [reflexivity|].
  cbn [ComposableNodeContainer.composable_node_descriptions pipeline_container].
  split; [by rewrite app_assoc, last_snoc|].
  split; [by rewrite Hcol|]. split; [exact HJP|]. split; [exact Hf|].
  split; [by rewrite Hcol|].
  apply JULIASET_PARAMS_Ok in HJP as (f' & Hf' & ->).
  rewrite Hf in Hf'. injection Hf' as <-. rewrite Hcol.
  cbn [ComposableNode.parameters].
  split; [by vm_compute|]. split; [by vm_compute|].
  split; [by vm_compute|]. split; [by vm_compute|].
  intros HN. rewrite HN, py_float_shipped in Hf. by injection Hf as <-.
Qed.

(** ** Launches that succeed *)

(** Once the module has loaded and the launch arguments are readable,
    [launch_setup] returns its two containers for every resolution key
    of the table. *)
Lemma launch_setup_returns (context : LaunchContext) (JP : list dict)
    (config resolution label flags : string) (enable_mt enable_nsys : bool) :
  JULIASET_PARAMS = Ok JP →
  LaunchConfiguration_perform "config" context = Ok config →
  LaunchConfiguration_perform "resolution" context = Ok resolution →
  IfCondition_evaluate "enable_mt" context = Ok enable_mt →
  IfCondition_evaluate "enable_nsys" context = Ok enable_nsys →
  LaunchConfiguration_perform "nsys_profile_label" context = Ok label →
  LaunchConfiguration_perform "nsys_profile_flags" context = Ok flags →
  is_Some (RESOLUTIONS !! resolution) →
  ∃ pipeline composite, launch_setup context = Ok [pipeline; composite].
Proof.
  intros HJP Hc Hr Hmt Hnsys Hl Hf [[w h] Hres].
  pose proof HJP as (f & Hfloat & _)%JULIASET_PARAMS_Ok.
  eexists _, _. apply launch_setup_Ok.
  exists JP, config, resolution, enable_mt, enable_nsys, label, flags.
  eexists _, _, _. repeat (split; [eassumption|]).
  split; [apply container_prefix_eq, build_profile_name_eq|].
  split; [unfold cam2image_node, getitem; rewrite Hres; reflexivity|].
  split; [|reflexivity].
  apply pipeline_nodes_Ok. eexists. split; [|reflexivity].
  apply colorize_node_Ok. by exists f.
Qed.

(** ** The executable of the two containers *)

(** Both containers run the multithreaded component container exactly when
    enable_mt is set, and the single-threaded one otherwise. *)
Theorem container_executable (context : LaunchContext)
    (r : list ComposableNodeContainer.t) (enable_mt : bool) :
  launch_setup context = Ok r →
  IfCondition_evaluate "enable_mt" context = Ok enable_mt →
  ∀ group, group ∈ r →
    ComposableNodeContainer.package group = "rclcpp_components" ∧
    (ComposableNodeContainer.executable group = "component_container_mt"
       ↔ enable_mt = true) ∧
    (ComposableNodeContainer.executable group = "component_container"
       ↔ enable_mt = false).
Proof.
  intros (JP & config & resolution & mt & nsys & label & flags & prefix
          & cam & nodes & _ & _ & _ & Hmt & _ & _ & _ & _ & _ & _ & ->)
    %launch_setup_Ok Hmt'.
  rewrite Hmt in Hmt'. injection Hmt' as ->.
  intros group [->|[->|[]%elem_of_nil]%elem_of_cons]%elem_of_cons;
    destruct enable_mt; simpl; repeat split; done.
Qed.

(** ** When a launch succeeds, and how it fails *)

(** [launch_setup] returns containers exactly when the module has loaded,
    the six launch arguments can be read, the two flags as booleans, and
    the resolution is a key of the table. *)
Theorem launch_setup_succeeds_iff (context : LaunchContext) :
  (∃ r, launch_setup context = Ok r) ↔
  ∃ JP config resolution enable_mt enable_nsys label flags,
    JULIASET_PARAMS = Ok JP ∧
    LaunchConfiguration_perform "config" context = Ok config ∧
    LaunchConfiguration_perform "resolution" context = Ok resolution ∧
    IfCondition_evaluate "enable_mt" context = Ok enable_mt ∧
    IfCondition_evaluate "enable_nsys" context = Ok enable_nsys ∧
    LaunchConfiguration_perform "nsys_profile_label" context = Ok label ∧
    LaunchConfiguration_perform "nsys_profile_flags" context = Ok flags ∧
    is_Some (RESOLUTIONS !! resolution).
Proof.
  split.
  - intros [r (JP & config & resolution & mt & nsys & label & flags & prefix
                & cam & nodes & HJP & Hc & Hr & Hmt & Hnsys & Hl & Hf & _ & Hcam & _)
               %launch_setup_Ok].
    apply cam2image_node_Ok in Hcam as (w & h & Hres & _).
    exists JP, config, resolution, mt, nsys, label, flags.
    repeat (split; [done|]). by exists (w, h).
  - intros (JP & config & resolution & mt & nsys & label & flags
            & HJP & Hc & Hr & Hmt & Hnsys & Hl & Hf & Hres).
    destruct (launch_setup_returns context JP config resolution label flags mt nsys)
      as (pipeline & composite & Hrun); [done..|].
    by exists [pipeline; composite].
Qed.

Lemma LaunchConfiguration_perform_Err (name : string) (context : LaunchContext)
    (e : exn) :
  LaunchConfiguration_perform name context = Err e →
  launch_configurations context !! name = None ∧ e = SubstitutionFailure name.
Proof.
  unfold LaunchConfiguration_perform.
  destruct (launch_configurations context !! name); [discriminate|].
  by intros [= <-].
Qed.

Lemma IfCondition_evaluate_Err (name : string) (context : LaunchContext) (e : exn) :
  IfCondition_evaluate name context = Err e →
  (launch_configurations context !! name = None ∧ e = SubstitutionFailure name)
  ∨ (∃ expression,
       LaunchConfiguration_perform name context = Ok expression ∧
       evaluate_condition_expression expression = Err e).
Proof.
  unfold IfCondition_evaluate.
  destruct (LaunchConfiguration_perform name context) as [s|e'] eqn:Hp; simpl.
  - intros He. right. by exists s.
  - intros [= <-]. left. by apply LaunchConfiguration_perform_Err.
Qed.

Lemma cam2image_node_Err (resolution : string) (e : exn) :
  cam2image_node resolution = Err e →
  RESOLUTIONS !! resolution = None ∧ e = KeyError resolution.
Proof.
  unfold cam2image_node, getitem.
  destruct (RESOLUTIONS !! resolution) as [wh|]; [discriminate|].
  by intros [= <-].
Qed.

Lemma pipeline_nodes_Err (JP : list dict) (cam : ComposableNode.t) (e : exn) :
  pipeline_nodes JP cam = Err e → py_float MAX_ITERATION = Err e.
Proof.
  unfold pipeline_nodes, colorize_node.
  destruct (py_float MAX_ITERATION); [discriminate|]. by intros [= <-].
Qed.

(** The ways in which [launch_setup] can fail. *)
Lemma launch_setup_Err (context : LaunchContext) (e : exn) :
  launch_setup context = Err e →
  (py_float MAX_ITERATION = Err e ∧ e = OverflowError)
  ∨ (∃ name,
       name ∈ ["config"; "resolution"; "enable_mt"; "enable_nsys";
               "nsys_profile_label"; "nsys_profile_flags"] ∧
       launch_configurations context !! name = None ∧
       e = SubstitutionFailure name)
  ∨ (∃ name expression,
       name ∈ ["enable_mt"; "enable_nsys"] ∧
       LaunchConfiguration_perform name context = Ok expression ∧
       evaluate_condition_expression expression = Err e)
  ∨ (∃ resolution,
       LaunchConfiguration_perform "resolution" context = Ok resolution ∧
       RESOLUTIONS !! resolution = None ∧
       e = KeyError resolution).
Proof.
  unfold launch_setup. intros H.
  assert (∀ e', py_float MAX_ITERATION = Err e' → e' = OverflowError) as Hover.
  { unfold py_float. intros e'. by destruct (is_infinity _); intros [=]. }
  destruct JULIASET_PARAMS as [JP|e0] eqn:HJP.
  2: { injection H as ->. left. unfold JULIASET_PARAMS in HJP.
       destruct (py_float MAX_ITERATION) as [f|e0] eqn:Hf; [discriminate|].
       injection HJP as ->. split; [done|]. by apply Hover. }
  rewrite bind_Ok_l in H.
  destruct (LaunchConfiguration_perform "config" context) as [config|e0] eqn:Hc.
  2: { injection H as ->. right; left. exists "config".
       split; [compute_done|]. by apply LaunchConfiguration_perform_Err. }
  rewrite bind_Ok_l in H.
  destruct (LaunchConfiguration_perform "resolution" context) as [resolution|e0] eqn:Hr.
  2: { injection H as ->. right; left. exists "resolution".
       split; [compute_done|]. by apply LaunchConfiguration_perform_Err. }
  rewrite bind_Ok_l in H.
  destruct (IfCondition_evaluate "enable_mt" context) as [mt|e0] eqn:Hmt.
  2: { injection H as ->. right.
       apply IfCondition_evaluate_Err in Hmt as [Hmt|(s & Hs & He)].
       - left. exists "enable_mt". split; [compute_done|done].
       - right; left. exists "enable_mt", s. split; [compute_done|done]. }
  rewrite bind_Ok_l in H.
  destruct (IfCondition_evaluate "enable_nsys" context) as [nsys|e0] eqn:Hnsys.
  2: { injection H as ->. right.
       apply IfCondition_evaluate_Err in Hnsys as [Hnsys|(s & Hs & He)].
       - left. exists "enable_nsys". split; [compute_done|done].
       - right; left. exists "enable_nsys", s. split; [compute_done|done]. }
  rewrite bind_Ok_l in H.
  destruct (LaunchConfiguration_perform "nsys_profile_label" context)
    as [label|e0] eqn:Hl.
  2: { injection H as ->. right; left. exists "nsys_profile_label".
       split; [compute_done|]. by apply LaunchConfiguration_perform_Err. }
  rewrite bind_Ok_l in H.
  destruct (LaunchConfiguration_perform "nsys_profile_flags" context)
    as [flags|e0] eqn:Hf.
  2: { injection H as ->. right; left. exists "nsys_profile_flags".
       split; [compute_done|]. by apply LaunchConfiguration_perform_Err. }
  rewrite bind_Ok_l in H.
  rewrite (container_prefix_eq _ _ _ _ _ _ _
             (build_profile_name_eq label config mt resolution)), bind_Ok_l in H.
  destruct (cam2image_node resolution) as [cam|e0] eqn:Hcam.
  - rewrite bind_Ok_l in H.
    destruct (pipeline_nodes JP cam) as [nodes|e0] eqn:Hnodes; [discriminate|].
    injection H as ->. apply pipeline_nodes_Err in Hnodes.
    left. split; [done|]. by apply Hover.
  - injection H as ->. right; right; right. exists resolution.
    apply cam2image_node_Err in Hcam as [Hres ->]. done.
Qed.

(** Every failure of [launch_setup] is one of four: the chain length does
    not fit a float when the module loads; a launch argument is not set,
    reported as a SubstitutionFailure that names it; a flag is not a
    boolean for the launch library, reported with the library's error; or
    the resolution is not a key of the table, reported as a KeyError that
    names it. *)
Theorem launch_setup_failures (context : LaunchContext) (e : exn) :
  launch_setup context = Err e →
  (py_float MAX_ITERATION = Err e ∧ e = OverflowError)
  ∨ (∃ name,
       name ∈ ["config"; "resolution"; "enable_mt"; "enable_nsys";
               "nsys_profile_label"; "nsys_profile_flags"] ∧
       launch_configurations context !! name = None ∧
       e = SubstitutionFailure name)
  ∨ (∃ name expression,
       name ∈ ["enable_mt"; "enable_nsys"] ∧
       LaunchConfiguration_perform name context = Ok expression ∧
       evaluate_condition_expression expression = Err e)
  ∨ (∃ resolution,
       LaunchConfiguration_perform "resolution" context = Ok resolution ∧
       RESOLUTIONS !! resolution = None ∧
       e = KeyError resolution).
Proof. apply launch_setup_Err. Qed.

(** ** The nodes of a launch and their parameters *)

Lemma cam2image_node_eq (resolution : string) (cam : ComposableNode.t) :
  cam2image_node resolution = Ok cam →
  ∃ width height, RESOLUTIONS !! resolution = Some (width, height) ∧
    cam =
      {| ComposableNode.package := "image_tools";
         ComposableNode.name := "cam2image";
         ComposableNode.plugin := "image_tools::Cam2Image";
         ComposableNode.remappings := [("/image", "/image_in")];
         ComposableNode.extra_arguments :=
           Some [ {[ "use_intra_process_comms" := VBool true ]} ];
         ComposableNode.parameters :=
           [ {[ "burger_mode" := VBool true;
                "history" := VStr "keep_last";
                "frequency" := VFloat IMAGE_HZ;
                "width" := VInt width;
                "height" := VInt height ]} ] |}.
Proof.
  unfold cam2image_node, getitem. intros H.
  destruct (RESOLUTIONS !! resolution) as [[w h]|]; [|discriminate].
  simpl in H. apply mret_Ok in H as <-. by exists w, h.
Qed.

(** Every entry of the table is wider than it is high. *)
Lemma RESOLUTIONS_landscape (resolution : string) (width height : Z) :
  RESOLUTIONS !! resolution = Some (width, height) → 0 < height < width.
Proof.
  intros Hres.
  destruct (decide (resolution ∈ ["16K"; "8K"; "4K"; "1080p"; "720p"; "480p"]))
    as [Hin|Hout].
  - repeat (apply elem_of_cons in Hin as [->|Hin];
            [vm_compute in Hres; injection Hres as <- <-; lia|]).
    by apply elem_of_nil in Hin.
  - rewrite (RESOLUTIONS_miss _ Hout) in Hres. discriminate.
Qed.

(** The nodes a successful launch hands out, in either container. *)
Lemma launch_setup_nodes (context : LaunchContext)
    (r : list ComposableNodeContainer.t) (group : ComposableNodeContainer.t)
    (node : ComposableNode.t) :
  launch_setup context = Ok r →
  group ∈ r →
  node ∈ ComposableNodeContainer.composable_node_descriptions group →
  ∃ JP resolution cam colorize,
    JULIASET_PARAMS = Ok JP ∧
    cam2image_node resolution = Ok cam ∧
    colorize_node JP = Ok colorize ∧
    (node = cam ∨ node = map_node JP
     ∨ (∃ i, 1 ≤ i ≤ MAX_ITERATION - 1 ∧ node = juliaset_node JP i)
     ∨ node = colorize ∨ node = composite_node JP).
Proof.
  intros (JP & config & resolution & mt & nsys & label & flags & prefix
          & cam & nodes & HJP & _ & _ & _ & _ & _ & _ & _ & Hcam & Hnodes & ->)
    %launch_setup_Ok Hgroup Hnode.
  apply pipeline_nodes_Ok in Hnodes as (colorize & Hcol & ->).
  exists JP, resolution, cam, colorize. do 3 (split; [done|]).
  apply elem_of_cons in Hgroup as [->|Hgroup].
  - cbn [ComposableNodeContainer.composable_node_descriptions pipeline_container]
      in Hnode.
    apply elem_of_cons in Hnode as [->|Hnode]; [by left|].
    apply elem_of_cons in Hnode as [->|Hnode]; [by right; left|].
    apply elem_of_app in Hnode as [Hnode|Hnode].
    + apply list_elem_of_fmap in Hnode as (i & -> & Hi).
      apply elem_of_seqZ in Hi. right; right; left. exists i. split; [lia|done].
    + apply list_elem_of_singleton in Hnode as ->. by right; right; right; left.
  - apply list_elem_of_singleton in Hgroup as ->.
    cbn [ComposableNodeContainer.composable_node_descriptions composite_container]
      in Hnode.
    apply elem_of_cons in Hnode as [->|Hnode]; [by left|].
    apply list_elem_of_singleton in Hnode as ->. by right; right; right; right.
Qed.

(** Both containers start with the same capture node. It carries the
    width and height the table gives for the requested resolution, a
    positive height and a larger width, the image rate 100.0, burger mode,
    and intra-process communication. *)
Theorem capture_node_shared (context : LaunchContext)
    (r : list ComposableNodeContainer.t) :
  launch_setup context = Ok r →
  ∃ pipeline composite capture resolution width height,
    r = [pipeline; composite] ∧
    head (ComposableNodeContainer.composable_node_descriptions pipeline)
      = Some capture ∧
    head (ComposableNodeContainer.composable_node_descriptions composite)
      = Some capture ∧
    LaunchConfiguration_perform "resolution" context = Ok resolution ∧
    RESOLUTIONS !! resolution = Some (width, height) ∧
    0 < height < width ∧
    ComposableNode.parameters capture
      = [ {[ "burger_mode" := VBool true;
             "history" := VStr "keep_last";
             "frequency" := VFloat 100.0%float;
             "width" := VInt width;
             "height" := VInt height ]} ] ∧
    ComposableNode.extra_arguments capture
      = Some [ {[ "use_intra_process_comms" := VBool true ]} ] ∧
    remap "/image" capture = Some "/image_in".
Proof.
  intros (JP & config & resolution & mt & nsys & label & flags & prefix
          & cam & nodes & _ & _ & Hr & _ & _ & _ & _ & _ & Hcam & Hnodes & ->)
    %launch_setup_Ok.
  apply pipeline_nodes_Ok in Hnodes as (colorize & _ & ->).
  apply cam2image_node_eq in Hcam as (w & h & Hres & ->).
  eexists _, _, _, resolution, w, h.
  split; [reflexivity|]. split; [reflexivity|]. split; [reflexivity|].
  split; [exact Hr|]. split; [exact Hres|].
  split; [by eapply RESOLUTIONS_landscape|]. done.
Qed.

Lemma merge_last_wins_foldl (ps : list dict) (acc : dict) :
  foldl (fun acc d => d ∪ acc) acc ps = merge_last_wins ps ∪ acc.
Proof.
  unfold merge_last_wins. revert acc.
  induction ps as [|d ps IH]; intros acc; simpl.
  - by rewrite (left_id_L ∅ (∪)).
  - rewrite IH, (IH (d ∪ ∅)), (right_id_L ∅ (∪)). by rewrite (assoc_L (∪)).
Qed.

(** Merging a list that ends with [later]: the dicts of [later] win. *)
Lemma merge_last_wins_app (earlier later : list dict) :
  merge_last_wins (earlier ++ later) = merge_last_wins later ∪ merge_last_wins earlier.
Proof.
  unfold merge_last_wins at 1. rewrite foldl_app.
  apply merge_last_wins_foldl.
Qed.

Lemma merge_first_wins_foldl (ps : list dict) (acc : dict) :
  foldl (fun acc d => acc ∪ d) acc ps = acc ∪ merge_first_wins ps.
Proof.
  unfold merge_first_wins. revert acc.
  induction ps as [|d ps IH]; intros acc; simpl.
  - by rewrite (right_id_L ∅ (∪)).
  - rewrite IH, (IH (∅ ∪ d)), (left_id_L ∅ (∪)). by rewrite (assoc_L (∪)).
Qed.

Lemma merge_first_wins_cons (d : dict) (ps : list dict) :
  merge_first_wins (d :: ps) = d ∪ merge_first_wins ps.
Proof.
  unfold merge_first_wins at 1. simpl.
  by rewrite merge_first_wins_foldl, (left_id_L ∅ (∪)).
Qed.

Lemma merge_last_wins_cons (d : dict) (ps : list dict) :
  merge_last_wins (d :: ps) = merge_last_wins ps ∪ d.
Proof.
  unfold merge_last_wins at 1. simpl.
  by rewrite merge_last_wins_foldl, (right_id_L ∅ (∪)).
Qed.

(** Two dicts that agree on the keys they share merge to the same dict in
    either order. *)
Lemma union_agree_comm (m1 m2 : dict) :
  (∀ k v1 v2, m1 !! k = Some v1 → m2 !! k = Some v2 → v1 = v2) →
  m1 ∪ m2 = m2 ∪ m1.
Proof.
  intros Hagree. apply map_eq. intros k. rewrite !lookup_union.
  destruct (m1 !! k) as [v1|] eqn:H1, (m2 !! k) as [v2|] eqn:H2; try done.
  by rewrite (Hagree k v1 v2 H1 H2).
Qed.

Lemma merge_agree_cons (d : dict) (ps : list dict) :
  merge_last_wins ps = merge_first_wins ps →
  (∀ k v1 v2, d !! k = Some v1 → merge_first_wins ps !! k = Some v2 → v1 = v2) →
  merge_last_wins (d :: ps) = merge_first_wins (d :: ps).
Proof.
  intros Hps Hagree.
  rewrite merge_last_wins_cons, merge_first_wins_cons, Hps.
  symmetry. by apply union_agree_comm.
Qed.

(** One dict after the other, for a list of one-key dicts. *)
Ltac merge_agree :=
  repeat (apply merge_agree_cons;
          [|let H := fresh in
            intros ? ? ? [<- <-]%lookup_singleton_Some H;
            vm_compute in H; congruence]);
  reflexivity.

(** For every node of a launch the order of override does not matter: the
    parameter dicts merge to the same dict whether a later or an earlier
    entry wins. *)
Theorem parameters_override_free (context : LaunchContext)
    (r : list ComposableNodeContainer.t) (group : ComposableNodeContainer.t)
    (node : ComposableNode.t) :
  launch_setup context = Ok r →
  group ∈ r →
  node ∈ ComposableNodeContainer.composable_node_descriptions group →
  merge_last_wins (ComposableNode.parameters node)
  = merge_first_wins (ComposableNode.parameters node).
Proof.
  intros Hrun Hgroup Hnode.
  destruct (launch_setup_nodes _ _ _ _ Hrun Hgroup Hnode)
    as (JP & resolution & cam & colorize & HJP & Hcam & Hcol & Hcases).
  apply JULIASET_PARAMS_Ok in HJP as (f & Hf & ->).
  apply cam2image_node_eq in Hcam as (w & h & _ & ->).
  apply colorize_node_Ok in Hcol as (f' & Hf' & ->).
  rewrite Hf in Hf'. injection Hf' as <-.
  destruct Hcases as [->|[->|[(i & _ & ->)|[->| ->]]]];
    cbn [ComposableNode.parameters map_node juliaset_node composite_node app].
  - rewrite merge_last_wins_cons, merge_first_wins_cons.
    unfold merge_last_wins, merge_first_wins. simpl.
    by rewrite (left_id_L ∅ (∪)), (right_id_L ∅ (∪)).
  - merge_agree.
  - merge_agree.
  - merge_agree.
  - merge_agree.
Qed.

(** Every Julia-set node of a launch, in the pipeline and in the composite
    container alike, runs with the shared parameters: what
    [JULIASET_PARAMS] gives for a key is what the node's own list gives. *)
Theorem shared_parameters_in_force (context : LaunchContext)
    (r : list ComposableNodeContainer.t) (group : ComposableNodeContainer.t)
    (node : ComposableNode.t) (JP : list dict) (key : string) (v : value) :
  launch_setup context = Ok r →
  group ∈ r →
  node ∈ ComposableNodeContainer.composable_node_descriptions group →
  ComposableNode.plugin node ≠ "image_tools::Cam2Image" →
  JULIASET_PARAMS = Ok JP →
  merge_last_wins JP !! key = Some v →
  merge_last_wins (ComposableNode.parameters node) !! key = Some v.
Proof.
  intros Hrun Hgroup Hnode Hplugin HJP Hkey.
  destruct (launch_setup_nodes _ _ _ _ Hrun Hgroup Hnode)
    as (JP' & resolution & cam & colorize & HJP' & Hcam & Hcol & Hcases).
  rewrite HJP in HJP'. injection HJP' as <-.
  apply cam2image_node_eq in Hcam as (w & h & _ & ->).
  apply colorize_node_Ok in Hcol as (f' & Hf' & ->).
  destruct Hcases as [->|[->|[(i & _ & ->)|[->| ->]]]].
  - by destruct Hplugin.
  - exact Hkey.
  - cbn [ComposableNode.parameters juliaset_node].
    rewrite merge_last_wins_app. by apply lookup_union_Some_l.
  - cbn [ComposableNode.parameters].
    change ({[ "max_iterations" := VFloat f' ]} :: JP)
      with ([ ({[ "max_iterations" := VFloat f' ]} : dict) ] ++ JP).
    rewrite merge_last_wins_app. by apply lookup_union_Some_l.
  - cbn [ComposableNode.parameters composite_node].
    rewrite merge_last_wins_app. by apply lookup_union_Some_l.
Qed.

(** ** Readers of the pipeline's channels *)




(** ** Chain lengths below 1 *)

(** With a chain length of 0 or less the loop does not run and the
    pipeline is capture, map, colorize; the colorize node then reads
    /image_out(N-1), a channel that no stage writes. *)
Theorem pipeline_broken_below_one (context : LaunchContext)
    (r : list ComposableNodeContainer.t) :
  MAX_ITERATION ≤ 0 →
  launch_setup context = Ok r →
  ∃ pipeline composite capture colorize JP,
    r = [pipeline; composite] ∧
    ComposableNodeContainer.composable_node_descriptions pipeline
      = [capture; map_node JP; colorize] ∧
    ComposableNode.plugin colorize = "type_adapt_example::ColorizeNode" ∧
    remap "/image_in" colorize = Some ("/image_out" +:+ pretty (MAX_ITERATION - 1)) ∧
    output_routes (ComposableNodeContainer.composable_node_descriptions pipeline)
      = ["/image_in"; "/image_out0"; "/pipeline/image_out"] ∧
    "/image_out" +:+ pretty (MAX_ITERATION - 1)
      ∉ output_routes (ComposableNodeContainer.composable_node_descriptions pipeline).
Proof.
  intros HN (JP & config & resolution & mt & nsys & label & flags & prefix
             & cam & nodes & _ & _ & _ & _ & _ & _ & _ & _ & Hcam & Hnodes & ->)
    %launch_setup_Ok.
  apply pipeline_nodes_Ok in Hnodes as (colorize & Hcol & ->).
  apply cam2image_node_eq in Hcam as (w & h & _ & ->).
  apply colorize_node_Ok in Hcol as (f & _ & ->).
  eexists _, _, _, _, JP. split; [reflexivity|].
  cbn [ComposableNodeContainer.composable_node_descriptions pipeline_container].
  unfold range. rewrite seqZ_nil by lia.
  split; [reflexivity|]. split; [reflexivity|]. split; [reflexivity|].
  split; [reflexivity|].
  change (output_routes _) with ["/image_in"; image_out 0; "/pipeline/image_out"].
  intros [Hc|[Hc|[Hc|[]%elem_of_nil]%elem_of_cons]%elem_of_cons]%elem_of_cons.
  - by destruct (image_out_not_image_in (MAX_ITERATION - 1)).
  - apply image_out_inj in Hc. lia.
  - by destruct (image_out_not_pipeline (MAX_ITERATION - 1)).
Qed.

(** ** The stage index *)



(** ** Declared arguments *)

Lemma DeclareLaunchArgument_execute_lookup (argument : DeclareLaunchArgument.t)
    (context : LaunchContext) (name : string) :
  launch_configurations (DeclareLaunchArgument_execute argument context) !! name
  = match launch_configurations context !! name with
    | Some v => Some v
    | None =>
        if decide (DeclareLaunchArgument.name argument = name)
        then Some (DeclareLaunchArgument.default_value argument)
        else None
    end.
Proof.
  unfold DeclareLaunchArgument_execute.
  destruct (launch_configurations context !! DeclareLaunchArgument.name argument)
    as [v|] eqn:Hset.
  - destruct (launch_configurations context !! name) eqn:Hname; [done|].
    case_decide; [|done]. subst name. by rewrite Hset in Hname.
  - simpl. rewrite lookup_insert. case_decide.
    + subst name. by rewrite Hset.
    + by destruct (launch_configurations context !! name).
Qed.

(** Running a list of declarations: what the caller has set stays, and
    what is not set takes the default of the first declaration of it. *)
Lemma declarations_lookup (arguments : list DeclareLaunchArgument.t)
    (context : LaunchContext) (name : string) :
  launch_configurations
    (foldl (fun context argument => DeclareLaunchArgument_execute argument context)
           context arguments) !! name
  = (launch_configurations context
     ∪ list_to_map
         ((fun argument => (DeclareLaunchArgument.name argument,
                            DeclareLaunchArgument.default_value argument))
            <$> arguments)) !! name.
Proof.
  revert context. induction arguments as [|argument arguments IH]; intros context.
  - simpl. by rewrite (right_id_L ∅ (∪)).
  - simpl. rewrite IH, !lookup_union, DeclareLaunchArgument_execute_lookup,
      lookup_insert.
    destruct (launch_configurations context !! name) as [v|];
      case_decide; by destruct (list_to_map _ !! name).
Qed.

Lemma declared_arguments_reads (context : LaunchContext) :
  launch_configurations (declared context)
  = launch_configurations context
    ∪ {[ "config" := "composite";
         "resolution" := "1080p";
         "enable_mt" := "false";
         "enable_nsys" := "false";
         "nsys_profile_label" := "";
         "nsys_profile_flags" := "--trace=osrt,nvtx,cuda" ]} ∧
  ∀ name,
    name ∈ ["config"; "resolution"; "enable_mt"; "enable_nsys";
            "nsys_profile_label"; "nsys_profile_flags"] →
    ∃ v, LaunchConfiguration_perform name (declared context) = Ok v ∧
         (∀ given, launch_configurations context !! name = Some given → v = given).
Proof.
  assert (∀ name,
    launch_configurations (declared context) !! name
    = (launch_configurations context
       ∪ {[ "config" := "composite";
            "resolution" := "1080p";
            "enable_mt" := "false";
            "enable_nsys" := "false";
            "nsys_profile_label" := "";
            "nsys_profile_flags" := "--trace=osrt,nvtx,cuda" ]}) !! name) as Hlookup.
  { intros name. unfold declared. by rewrite declarations_lookup. }
  split; [by apply map_eq|].
  intros name Hin. unfold LaunchConfiguration_perform.
  rewrite Hlookup, lookup_union.
  destruct (launch_configurations context !! name) as [given|] eqn:Hgiven.
  - exists given. split; [|by intros ? [= ->]].
    match goal with |- context [Some given ∪ ?o] => by destruct o end.
  - repeat (apply elem_of_cons in Hin as [->|Hin]; [eexists; by split|]).
    by apply elem_of_nil in Hin.
Qed.

(** After the declarations of [launch_args] the launch configurations are
    the caller's, completed by the six defaults; [launch_setup] then finds
    every argument it reads, with the caller's value where there is one. *)
Theorem declared_arguments (context : LaunchContext) :
  launch_configurations (declared context)
  = launch_configurations context
    ∪ {[ "config" := "composite";
         "resolution" := "1080p";
         "enable_mt" := "false";
         "enable_nsys" := "false";
         "nsys_profile_label" := "";
         "nsys_profile_flags" := "--trace=osrt,nvtx,cuda" ]} ∧
  ∀ name,
    name ∈ ["config"; "resolution"; "enable_mt"; "enable_nsys";
            "nsys_profile_label"; "nsys_profile_flags"] →
    ∃ v, LaunchConfiguration_perform name (declared context) = Ok v ∧
         (∀ given, launch_configurations context !! name = Some given → v = given).
Proof. apply declared_arguments_reads. Qed.

(** ** The launch description *)

Lemma generate_launch_description_visit (context : LaunchContext) :
  LaunchDescription_visit generate_launch_description context
  = launch_setup (declared context).
Proof.
  unfold generate_launch_description, LaunchDescription, add_action, declared.
  generalize launch_args. intros arguments. revert context.
  induction arguments as [|argument arguments IH]; intros context; simpl.
  - destruct (launch_setup context); simpl; [by rewrite app_nil_r|done].
  - apply IH.
Qed.

(** Launched through its description, the file never fails for an unset
    argument. A failure is the chain length not fitting a float, a flag
    (the caller's or the default) that the launch library does not read as
    a boolean, or a resolution (the caller's or the default) that is not a
    key of the table. *)
Theorem launch_description_failures (context : LaunchContext) (e : exn) :
  LaunchDescription_visit generate_launch_description context = Err e →
  (py_float MAX_ITERATION = Err e ∧ e = OverflowError)
  ∨ (∃ name expression,
       name ∈ ["enable_mt"; "enable_nsys"] ∧
       launch_configurations (declared context) !! name = Some expression ∧
       (∀ given, launch_configurations context !! name = Some given →
                 expression = given) ∧
       evaluate_condition_expression expression = Err e)
  ∨ (∃ resolution,
       launch_configurations (declared context) !! "resolution" = Some resolution ∧
       (∀ given, launch_configurations context !! "resolution" = Some given →
                 resolution = given) ∧
       RESOLUTIONS !! resolution = None ∧
       e = KeyError resolution).
Proof.
  rewrite generate_launch_description_visit.
  intros [Hover|[(name & Hin & Hunset & _)|[(name & s & Hin & Hs & He)|(res & Hres & Hmiss & ->)]]]
    %launch_setup_Err.
  - by left.
  - exfalso.
    destruct (proj2 (declared_arguments_reads context) name Hin) as (v & Hv & _).
    unfold LaunchConfiguration_perform in Hv. by rewrite Hunset in Hv.
  - right; left. exists name, s. split; [done|].
    assert (name ∈ ["config"; "resolution"; "enable_mt"; "enable_nsys";
                    "nsys_profile_label"; "nsys_profile_flags"]) as Hin'.
    { apply elem_of_cons in Hin as [->|Hin]; [compute_done|].
      apply list_elem_of_singleton in Hin as ->. compute_done. }
    destruct (proj2 (declared_arguments_reads context) name Hin') as (v & Hv & Hgiven).
    rewrite Hs in Hv. injection Hv as <-.
    unfold LaunchConfiguration_perform in Hs.
    destruct (launch_configurations (declared context) !! name) as [s'|] eqn:Hs';
      [|discriminate].
    injection Hs as ->. done.
  - right; right. exists res.
    destruct (proj2 (declared_arguments_reads context) "resolution") as (v & Hv & Hgiven);
      [compute_done|].
    rewrite Hres in Hv. injection Hv as <-.
    unfold LaunchConfiguration_perform in Hres.
    destruct (launch_configurations (declared context) !! "resolution") as [s'|] eqn:Hs';
      [|discriminate].
    injection Hres as ->. done.
Qed.

End Launch.

(** ** The theorems on sample launches *)

(** A launch on an x86_64 host whose arguments are literals returns. *)
Ltac sample_launch :=
  eapply launch_setup_returns;
  [ apply JULIASET_PARAMS_Ok; eexists; split; [vm_compute; reflexivity|reflexivity]
  | vm_compute; reflexivity ..
  | eexists; vm_compute; reflexivity ].

Lemma profiled_pipeline_launch :
  ∃ pipeline composite,
    launch_setup "x86_64" literal_condition MAX_ITERATION_shipped
                 profiled_pipeline_context = Ok [pipeline; composite].
Proof. sample_launch. Qed.

Lemma default_launch :
  ∃ pipeline composite,
    launch_setup "x86_64" literal_condition MAX_ITERATION_shipped
                 default_context = Ok [pipeline; composite].
Proof. sample_launch. Qed.

(** The shipped chain, profiled, in pipeline mode: 52 stages. *)
Lemma pipeline_stage_count_witness :
  ∃ r,
    launch_setup "x86_64" literal_condition MAX_ITERATION_shipped
                 profiled_pipeline_context = Ok r ∧
    ∃ pipeline composite,
      r = [pipeline; composite] ∧
      ComposableNodeContainer.condition pipeline
        = LaunchConfigurationEquals "config" "pipeline" ∧
      Z.of_nat (length (ComposableNodeContainer.composable_node_descriptions pipeline))
        = 52 ∧
      ComposableNode.plugin
        <$> ComposableNodeContainer.composable_node_descriptions pipeline
      = [ "image_tools::Cam2Image"; "type_adapt_example::MapNode" ]
        ++ replicate 49 "type_adapt_example::JuliasetNode"
        ++ [ "type_adapt_example::ColorizeNode" ].
Proof.
  destruct profiled_pipeline_launch as (pipeline & composite & Hrun).
  exists [pipeline; composite]. split; [exact Hrun|].
  apply (pipeline_stage_count "x86_64" literal_condition MAX_ITERATION_shipped
           profiled_pipeline_context); [by vm_compute|exact Hrun].
Defined.

(** The shipped chain: stage 1 reads what the map node writes, stage 49
    writes what the colorize node reads, no channel is used twice. *)
Lemma pipeline_routes_chain_witness :
  ∃ r,
    1 ≤ MAX_ITERATION_shipped ∧
    launch_setup "x86_64" literal_condition MAX_ITERATION_shipped
                 profiled_pipeline_context = Ok r ∧
    ∃ pipeline composite nodes,
      r = [pipeline; composite] ∧
      nodes = ComposableNodeContainer.composable_node_descriptions pipeline ∧
      (∀ i, 1 ≤ i ≤ MAX_ITERATION_shipped - 1 →
         ∃ previous stage,
           nodes !! Z.to_nat i = Some previous ∧
           nodes !! Z.to_nat (i + 1) = Some stage ∧
           ComposableNode.name stage = "juliaset_node" +:+ pretty i ∧
           remap "/image_out" previous = Some ("/image_out" +:+ pretty (i - 1)) ∧
           remap "/image_in" stage = remap "/image_out" previous) ∧
      (∃ last colorize,
         nodes !! Z.to_nat MAX_ITERATION_shipped = Some last ∧
         nodes !! Z.to_nat (MAX_ITERATION_shipped + 1) = Some colorize ∧
         ComposableNode.name colorize = "colorize_node" ∧
         remap "/image_out" last = Some "/image_out49" ∧
         remap "/image_in" colorize = remap "/image_out" last) ∧
      length (output_routes nodes) = length nodes ∧
      NoDup (output_routes nodes) ∧
      (∀ j k a b c,
         nodes !! j = Some a → nodes !! k = Some b → (j + 1 < k)%nat →
         c ∈ channels a → c ∉ channels b).
Proof.
  destruct profiled_pipeline_launch as (pipeline & composite & Hrun).
  exists [pipeline; composite].
  split; [by vm_compute|]. split; [exact Hrun|].
  apply (pipeline_routes_chain "x86_64" literal_condition MAX_ITERATION_shipped
           profiled_pipeline_context); [by vm_compute|exact Hrun].
Defined.

(** At the default arguments the composite container alone is active. *)
Lemma exactly_one_group_active_witness :
  ∃ r,
    launch_setup "x86_64" literal_condition MAX_ITERATION_shipped
                 default_context = Ok r ∧
    ∃ pipeline composite config,
      r = [pipeline; composite] ∧
      LaunchConfiguration_perform "config" default_context = Ok config ∧
      (config = "pipeline" →
         active default_context pipeline = true ∧
         active default_context composite = false) ∧
      (config = "composite" →
         active default_context pipeline = false ∧
         active default_context composite = true) ∧
      (config ∈ ["pipeline"; "composite"] →
         length (filter (fun group => active default_context group = true) r) = 1%nat) ∧
      (config ∉ ["pipeline"; "composite"] →
         active default_context pipeline = false ∧
         active default_context composite = false ∧
         filter (fun group => active default_context group = true) r = []).
Proof.
  destruct default_launch as (pipeline & composite & Hrun).
  exists [pipeline; composite]. split; [exact Hrun|].
  apply (exactly_one_group_active "x86_64" literal_condition MAX_ITERATION_shipped
           default_context); exact Hrun.
Defined.

(** The iterative stages of the shipped chain. *)
Lemma pipeline_iterative_stage_witness :
  ∃ r,
    launch_setup "x86_64" literal_condition MAX_ITERATION_shipped
                 profiled_pipeline_context = Ok r ∧
    ∃ pipeline composite JP,
      r = [pipeline; composite] ∧
      JULIASET_PARAMS MAX_ITERATION_shipped = Ok JP ∧
      (∀ i, 1 ≤ i ≤ MAX_ITERATION_shipped - 1 →
         ∃ stage,
           ComposableNodeContainer.composable_node_descriptions pipeline
             !! Z.to_nat (i + 1) = Some stage ∧
           stage = juliaset_node JP i ∧
           ComposableNode.plugin stage = "type_adapt_example::JuliasetNode" ∧
           ComposableNode.name stage = "juliaset_node" +:+ pretty i ∧
           ComposableNode.parameters stage
             = {[ "is_composite" := VBool false ]} :: {[ "proc_id" := VInt i ]} :: JP ∧
           remap "/image_in" stage = Some ("/image_out" +:+ pretty (i - 1)) ∧
           remap "/image_out" stage = Some ("/image_out" +:+ pretty i)) ∧
      (∀ i j,
         ComposableNode.name (juliaset_node JP i) = ComposableNode.name (juliaset_node JP j) →
         i = j) ∧
      NoDup (ComposableNode.name
               <$> ComposableNodeContainer.composable_node_descriptions pipeline).
Proof.
  destruct profiled_pipeline_launch as (pipeline & composite & Hrun).
  exists [pipeline; composite]. split; [exact Hrun|].
  apply (pipeline_iterative_stage "x86_64" literal_condition MAX_ITERATION_shipped
           profiled_pipeline_context); exact Hrun.
Defined.

(** The composite container at the default arguments. *)
Lemma composite_stage_list_witness :
  ∃ r,
    launch_setup "x86_64" literal_condition MAX_ITERATION_shipped
                 default_context = Ok r ∧
    ∃ pipeline composite capture stage colorize JP,
      r = [pipeline; composite] ∧
      ComposableNodeContainer.condition composite
        = LaunchConfigurationEquals "config" "composite" ∧
      ComposableNodeContainer.composable_node_descriptions composite
        = [capture; stage] ∧
      ComposableNode.plugin capture = "image_tools::Cam2Image" ∧
      ComposableNode.plugin stage = "type_adapt_example::JuliasetNode" ∧
      JULIASET_PARAMS MAX_ITERATION_shipped = Ok JP ∧
      ComposableNode.parameters stage = {[ "is_composite" := VBool true ]} :: JP ∧
      remap "/image_out" stage = Some "/composite/image_out" ∧
      last (ComposableNodeContainer.composable_node_descriptions pipeline)
        = Some colorize ∧
      remap "/image_out" colorize = Some "/pipeline/image_out" ∧
      remap "/image_out" stage ≠ remap "/image_out" colorize.
Proof.
  destruct default_launch as (pipeline & composite & Hrun).
  exists [pipeline; composite]. split; [exact Hrun|].
  apply (composite_stage_list "x86_64" literal_condition MAX_ITERATION_shipped
           default_context); exact Hrun.
Defined.

(** Two threaded and two unthreaded names at the same label. *)
Lemma build_profile_name_injective_witness :
  contains_char "-" "pipeline" = false ∧
  contains_char "-" "720p" = false ∧
  build_profile_name "x86_64" "run1" "pipeline" true "720p"
  = build_profile_name "x86_64" "run1" "pipeline" true "720p" ∧
  ("pipeline" = "pipeline" ∧ true = true ∧ "720p" = "720p").
Proof.
  split; [reflexivity|]. split; [reflexivity|]. split; [reflexivity|].
  apply (build_profile_name_injective "x86_64" "run1" "pipeline" "pipeline"
           true true "720p" "720p"); reflexivity.
Defined.

(** A topology mode that holds the separator: the name of an unthreaded
    "mt-pipeline" run is the name of a threaded "pipeline" run. *)
Lemma build_profile_name_collision :
  ("", "mt-pipeline", false, "720p") ≠ ("", "pipeline", true, "720p") ∧
  build_profile_name "x86_64" "" "mt-pipeline" false "720p"
  = build_profile_name "x86_64" "" "pipeline" true "720p".
Proof. split; [discriminate|vm_compute; reflexivity]. Qed.

(** The accepted topology modes and resolution keys hold no separator. *)
Lemma accepted_values_dash_free :
  (∀ config, config ∈ ["pipeline"; "composite"] → contains_char "-" config = false) ∧
  (∀ resolution, is_Some (RESOLUTIONS !! resolution) →
     contains_char "-" resolution = false).
Proof.
  split.
  - intros config Hin. repeat (apply elem_of_cons in Hin as [->|Hin]; [reflexivity|]).
    by apply elem_of_nil in Hin.
  - intros resolution [wh Hres].
    destruct (decide (resolution ∈ ["16K"; "8K"; "4K"; "1080p"; "720p"; "480p"]))
      as [Hin|Hout].
    + repeat (apply elem_of_cons in Hin as [->|Hin]; [reflexivity|]).
      by apply elem_of_nil in Hin.
    + rewrite (RESOLUTIONS_miss _ Hout) in Hres. discriminate.
Qed.

(** Profiling enabled at 720p in pipeline mode, no label: the wrapper is
    the nsys invocation and the grace periods are long. *)
Lemma profiling_wrapper_and_grace_witness :
  ∃ r,
    launch_setup "x86_64" literal_condition MAX_ITERATION_shipped
                 profiled_pipeline_context = Ok r ∧
    LaunchConfiguration_perform "config" profiled_pipeline_context = Ok "pipeline" ∧
    LaunchConfiguration_perform "resolution" profiled_pipeline_context = Ok "720p" ∧
    IfCondition_evaluate literal_condition "enable_mt" profiled_pipeline_context
      = Ok false ∧
    IfCondition_evaluate literal_condition "enable_nsys" profiled_pipeline_context
      = Ok true ∧
    LaunchConfiguration_perform "nsys_profile_label" profiled_pipeline_context = Ok "" ∧
    LaunchConfiguration_perform "nsys_profile_flags" profiled_pipeline_context
      = Ok "--trace=osrt,nvtx,cuda" ∧
    build_profile_name "x86_64" "" "pipeline" false "720p"
      = Ok "ros-type_adapt-x86_64-pipeline-720p-100hz" ∧
    length r = 2%nat ∧
    ∀ group, group ∈ r →
      (ComposableNodeContainer.prefix group
         = "nsys profile --trace=osrt,nvtx,cuda -o ros-type_adapt-x86_64-pipeline-720p-100hz"
         ↔ true = true) ∧
      (ComposableNodeContainer.prefix group = "" ↔ true = false) ∧
      (ComposableNodeContainer.sigkill_timeout group = "500" ↔ true = true) ∧
      (ComposableNodeContainer.sigkill_timeout group = "5" ↔ true = false) ∧
      (ComposableNodeContainer.sigterm_timeout group = "500" ↔ true = true) ∧
      (ComposableNodeContainer.sigterm_timeout group = "5" ↔ true = false).
Proof.
  destruct profiled_pipeline_launch as (pipeline & composite & Hrun).
  exists [pipeline; composite]. split; [exact Hrun|].
  do 7 (split; [vm_compute; reflexivity|]).
  apply (profiling_wrapper_and_grace "x86_64" literal_condition MAX_ITERATION_shipped
           profiled_pipeline_context [pipeline; composite]
           "" "pipeline" "720p" "--trace=osrt,nvtx,cuda"
           "ros-type_adapt-x86_64-pipeline-720p-100hz" false true);
    [exact Hrun|vm_compute; reflexivity..].
Defined.

(** A launch asked for the resolution 2K, which the table does not have. *)
Lemma resolution_lookup_witness :
  ("2K" ∉ ["16K"; "8K"; "4K"; "1080p"; "720p"; "480p"]) ∧
  cam2image_node "2K" = Err (KeyError "2K") ∧
  launch_setup "x86_64" literal_condition MAX_ITERATION_shipped
    (context_of "pipeline" "2K" "false" "false" "" "--trace=osrt,nvtx,cuda")
  = Err (KeyError "2K").
Proof.
  assert (Hout : "2K" ∉ ["16K"; "8K"; "4K"; "1080p"; "720p"; "480p"]).
  { compute_done. }
  destruct (resolution_lookup "x86_64" literal_condition MAX_ITERATION_shipped)
    as (_ & _ & Hmiss).
  destruct (Hmiss "2K" Hout) as (_ & Hcam & Hlaunch).
  split; [exact Hout|]. split; [exact Hcam|].
  eapply Hlaunch;
    [ apply JULIASET_PARAMS_Ok; eexists; split; [vm_compute; reflexivity|reflexivity]
    | vm_compute; reflexivity .. ].
Defined.

(** The colorize node of the shipped chain: 50.0 twice. *)
Lemma colorize_max_iterations_witness :
  ∃ r,
    launch_setup "x86_64" literal_condition MAX_ITERATION_shipped
                 profiled_pipeline_context = Ok r ∧
    ∃ pipeline composite colorize JP max_iterations,
      r = [pipeline; composite] ∧
      last (ComposableNodeContainer.composable_node_descriptions pipeline)
        = Some colorize ∧
      ComposableNode.plugin colorize = "type_adapt_example::ColorizeNode" ∧
      JULIASET_PARAMS MAX_ITERATION_shipped = Ok JP ∧
      py_float MAX_ITERATION_shipped = Ok max_iterations ∧
      ComposableNode.parameters colorize
        = {[ "max_iterations" := VFloat max_iterations ]} :: JP ∧
      occurrences "max_iterations" JP = [VFloat max_iterations] ∧
      occurrences "max_iterations" (ComposableNode.parameters colorize)
        = [VFloat max_iterations; VFloat max_iterations] ∧
      merge_last_wins (ComposableNode.parameters colorize) !! "max_iterations"
        = Some (VFloat max_iterations) ∧
      merge_first_wins (ComposableNode.parameters colorize) !! "max_iterations"
        = Some (VFloat max_iterations) ∧
      (MAX_ITERATION_shipped = MAX_ITERATION_shipped → max_iterations = 50.0%float).
Proof.
  destruct profiled_pipeline_launch as (pipeline & composite & Hrun).
  exists [pipeline; composite]. split; [exact Hrun|].
  apply (colorize_max_iterations "x86_64" literal_condition MAX_ITERATION_shipped
           profiled_pipeline_context); exact Hrun.
Defined.

(** ** Small chains *)

(** With a chain length of 1 the loop adds nothing: capture, map,
    colorize, the colorize node reading what the map node writes. *)
Lemma pipeline_degenerate (pipeline composite : ComposableNodeContainer.t) :
  launch_setup "x86_64" literal_condition 1 default_context = Ok [pipeline; composite] →
  (fun node => (ComposableNode.name node, ComposableNode.remappings node))
    <$> ComposableNodeContainer.composable_node_descriptions pipeline
  = [ ("cam2image", [("/image", "/image_in")]);
      ("map_node", [("/image_out", "/image_out0")]);
      ("colorize_node", [("/image_in", "/image_out0");
                         ("/image_out", "/pipeline/image_out")]) ].
Proof.
  intros (JP & config & resolution & mt & nsys & label & flags & prefix
          & cam & nodes & _ & _ & Hr & _ & _ & _ & _ & _ & Hcam & Hnodes & Heq)
    %launch_setup_Ok.
  injection Heq as -> _.
  apply pipeline_nodes_Ok in Hnodes as (colorize & Hcol & ->).
  apply colorize_node_Ok in Hcol as (f & _ & ->).
  apply cam2image_node_Ok in Hcam as (w & h & _ & _ & Hname & Hremap).
  simpl. by rewrite Hname, Hremap.
Qed.

(** ** Profile names of accepted runs *)

Lemma label_suffix_inj (label1 label2 : string) :
  match label1 with EmptyString => "" | _ => "-" +:+ label1 end
  = match label2 with EmptyString => "" | _ => "-" +:+ label2 end →
  label1 = label2.
Proof.
  destruct label1, label2; try done.
  rewrite !string_app_cons, !string_app_nil. by intros [= -> ->].
Qed.

(** For any mode, flag and key, runs with different labels get different
    profile names. *)
Theorem build_profile_name_label_injective (platform_machine : string)
    (label1 label2 config : string) (enable_mt : bool) (resolution : string) :
  build_profile_name platform_machine label1 config enable_mt resolution
  = build_profile_name platform_machine label2 config enable_mt resolution →
  label1 = label2.
Proof.
  rewrite !build_profile_name_eq. intros [= H].
  apply (inj (String.app platform_machine)) in H.
  apply (inj (String.app (if enable_mt then "-mt" else ""))) in H.
  apply (inj (String.app "-")) in H.
  apply (inj (String.app config)) in H.
  apply (inj (String.app "-")) in H.
  apply (inj (String.app resolution)) in H.
  apply (inj (String.app "-100hz")) in H.
  by apply label_suffix_inj.
Qed.

(** Among the accepted topology modes and resolution keys the profile
    name tells the whole run: two calls that return the same name had the
    same label, mode, threading flag and key. *)
Theorem build_profile_name_identifies_run (platform_machine : string)
    (label1 label2 config1 config2 : string) (enable_mt1 enable_mt2 : bool)
    (resolution1 resolution2 : string) :
  config1 ∈ ["pipeline"; "composite"] →
  config2 ∈ ["pipeline"; "composite"] →
  is_Some (RESOLUTIONS !! resolution1) →
  is_Some (RESOLUTIONS !! resolution2) →
  build_profile_name platform_machine label1 config1 enable_mt1 resolution1
  = build_profile_name platform_machine label2 config2 enable_mt2 resolution2 →
  label1 = label2 ∧ config1 = config2 ∧ enable_mt1 = enable_mt2
  ∧ resolution1 = resolution2.
Proof.
  intros Hin1 Hin2 Hres1 Hres2.
  destruct accepted_values_dash_free as [Hconfig Hresolution].
  pose proof (Hconfig _ Hin1) as Hc1. pose proof (Hconfig _ Hin2) as Hc2.
  pose proof (Hresolution _ Hres1) as Hr1. pose proof (Hresolution _ Hres2) as Hr2.
  assert (∀ config, config ∈ ["pipeline"; "composite"] → config ≠ "mt") as Hmt.
  { intros config Hin ->.
    repeat (apply elem_of_cons in Hin as [[=]|Hin]). by apply elem_of_nil in Hin. }
  rewrite !build_profile_name_eq. intros [= H].
  apply (inj (String.app platform_machine)) in H.
  set (L1 := match label1 with EmptyString => "" | _ => "-" +:+ label1 end) in *.
  set (L2 := match label2 with EmptyString => "" | _ => "-" +:+ label2 end) in *.
  assert ((if enable_mt1 then "-mt" else "") +:+ "-" +:+ config1
            +:+ "-" +:+ resolution1 +:+ "-" +:+ "100hz" +:+ L1
          = (if enable_mt2 then "-mt" else "") +:+ "-" +:+ config2
            +:+ "-" +:+ resolution2 +:+ "-" +:+ "100hz" +:+ L2) as H' by exact H.
  clear H.
  destruct enable_mt1, enable_mt2;
    destruct (dash_split "" _ "" _ eq_refl eq_refl H') as [_ H0]; clear H'.
  - destruct (dash_split "mt" _ "mt" _ eq_refl eq_refl H0) as [_ H1].
    destruct (dash_split config1 _ config2 _ Hc1 Hc2 H1) as [-> H2].
    destruct (dash_split resolution1 _ resolution2 _ Hr1 Hr2 H2) as [-> H3].
    apply (inj (String.app "100hz")) in H3.
    by rewrite (label_suffix_inj _ _ H3).
  - destruct (dash_split "mt" _ config2 _ eq_refl Hc2 H0) as [Hc _].
    by destruct (Hmt config2 Hin2).
  - destruct (dash_split config1 _ "mt" _ Hc1 eq_refl H0) as [Hc _].
    by destruct (Hmt config1 Hin1).
  - destruct (dash_split config1 _ config2 _ Hc1 Hc2 H0) as [-> H2].
    destruct (dash_split resolution1 _ resolution2 _ Hr1 Hr2 H2) as [-> H3].
    apply (inj (String.app "100hz")) in H3.
    by rewrite (label_suffix_inj _ _ H3).
Qed.

(** ** Further sample launches *)

(** The profiled pipeline launch with its map node at hand. *)
Lemma profiled_pipeline_map_node :
  ∃ pipeline composite JP,
    launch_setup "x86_64" literal_condition MAX_ITERATION_shipped
                 profiled_pipeline_context = Ok [pipeline; composite] ∧
    JULIASET_PARAMS MAX_ITERATION_shipped = Ok JP ∧
    map_node JP ∈ ComposableNodeContainer.composable_node_descriptions pipeline.
Proof.
  destruct profiled_pipeline_launch as (pipeline & composite & Hrun).
  exists pipeline, composite.
  pose proof Hrun as (JP & config & resolution & mt & nsys & label & flags & prefix
                      & cam & nodes & HJP & _ & _ & _ & _ & _ & _ & _ & _ & Hnodes & Heq)
    %launch_setup_Ok.
  exists JP. split; [exact Hrun|]. split; [exact HJP|].
  injection Heq as -> _.
  apply pipeline_nodes_Ok in Hnodes as (colorize & _ & ->).
  simpl. apply list_elem_of_further, list_elem_of_here.
Qed.

(** A chain of length 0 at the default arguments. *)
Lemma empty_chain_launch :
  ∃ pipeline composite,
    launch_setup "x86_64" literal_condition 0 default_context
    = Ok [pipeline; composite].
Proof. sample_launch. Qed.

Lemma container_executable_witness :
  ∃ r,
    launch_setup "x86_64" literal_condition MAX_ITERATION_shipped
                 profiled_pipeline_context = Ok r ∧
    IfCondition_evaluate literal_condition "enable_mt" profiled_pipeline_context
      = Ok false ∧
    ∀ group, group ∈ r →
      ComposableNodeContainer.package group = "rclcpp_components" ∧
      (ComposableNodeContainer.executable group = "component_container_mt"
         ↔ false = true) ∧
      (ComposableNodeContainer.executable group = "component_container"
         ↔ false = false).
Proof.
  destruct profiled_pipeline_launch as (pipeline & composite & Hrun).
  exists [pipeline; composite]. split; [exact Hrun|].
  split; [vm_compute; reflexivity|].
  apply (container_executable "x86_64" literal_condition MAX_ITERATION_shipped
           profiled_pipeline_context [pipeline; composite] false);
    [exact Hrun|vm_compute; reflexivity].
Defined.

Lemma launch_setup_failures_witness :
  launch_setup "x86_64" literal_condition MAX_ITERATION_shipped
    (context_of "pipeline" "2K" "false" "false" "" "--trace=osrt,nvtx,cuda")
  = Err (KeyError "2K") ∧
  ((py_float MAX_ITERATION_shipped = Err (KeyError "2K")
    ∧ KeyError "2K" = OverflowError)
   ∨ (∃ name,
        name ∈ ["config"; "resolution"; "enable_mt"; "enable_nsys";
                "nsys_profile_label"; "nsys_profile_flags"] ∧
        launch_configurations
          (context_of "pipeline" "2K" "false" "false" "" "--trace=osrt,nvtx,cuda")
          !! name = None ∧
        KeyError "2K" = SubstitutionFailure name)
   ∨ (∃ name expression,
        name ∈ ["enable_mt"; "enable_nsys"] ∧
        LaunchConfiguration_perform name
          (context_of "pipeline" "2K" "false" "false" "" "--trace=osrt,nvtx,cuda")
        = Ok expression ∧
        literal_condition expression = Err (KeyError "2K"))
   ∨ (∃ resolution,
        LaunchConfiguration_perform "resolution"
          (context_of "pipeline" "2K" "false" "false" "" "--trace=osrt,nvtx,cuda")
        = Ok resolution ∧
        RESOLUTIONS !! resolution = None ∧
        KeyError "2K" = KeyError resolution)).
Proof.
  split; [vm_compute; reflexivity|].
  apply (launch_setup_failures "x86_64" literal_condition MAX_ITERATION_shipped).
  vm_compute. reflexivity.
Defined.

Lemma capture_node_shared_witness :
  ∃ r,
    launch_setup "x86_64" literal_condition MAX_ITERATION_shipped
                 profiled_pipeline_context = Ok r ∧
    ∃ pipeline composite capture resolution width height,
      r = [pipeline; composite] ∧
      head (ComposableNodeContainer.composable_node_descriptions pipeline)
        = Some capture ∧
      head (ComposableNodeContainer.composable_node_descriptions composite)
        = Some capture ∧
      LaunchConfiguration_perform "resolution" profiled_pipeline_context
        = Ok resolution ∧
      RESOLUTIONS !! resolution = Some (width, height) ∧
      0 < height < width ∧
      ComposableNode.parameters capture
        = [ {[ "burger_mode" := VBool true;
               "history" := VStr "keep_last";
               "frequency" := VFloat 100.0%float;
               "width" := VInt width;
               "height" := VInt height ]} ] ∧
      ComposableNode.extra_arguments capture
        = Some [ {[ "use_intra_process_comms" := VBool true ]} ] ∧
      remap "/image" capture = Some "/image_in".
Proof.
  destruct profiled_pipeline_launch as (pipeline & composite & Hrun).
  exists [pipeline; composite]. split; [exact Hrun|].
  apply (capture_node_shared "x86_64" literal_condition MAX_ITERATION_shipped
           profiled_pipeline_context); exact Hrun.
Defined.

Lemma parameters_override_free_witness :
  ∃ r group node,
    launch_setup "x86_64" literal_condition MAX_ITERATION_shipped
                 profiled_pipeline_context = Ok r ∧
    group ∈ r ∧
    node ∈ ComposableNodeContainer.composable_node_descriptions group ∧
    merge_last_wins (ComposableNode.parameters node)
    = merge_first_wins (ComposableNode.parameters node).
Proof.
  destruct profiled_pipeline_map_node as (pipeline & composite & JP & Hrun & _ & Hnode).
  exists [pipeline; composite], pipeline, (map_node JP).
  split; [exact Hrun|]. split; [apply list_elem_of_here|]. split; [exact Hnode|].
  apply (parameters_override_free "x86_64" literal_condition MAX_ITERATION_shipped
           profiled_pipeline_context [pipeline; composite] pipeline);
    [exact Hrun|apply list_elem_of_here|exact Hnode].
Defined.

Lemma shared_parameters_in_force_witness :
  ∃ r group node JP,
    launch_setup "x86_64" literal_condition MAX_ITERATION_shipped
                 profiled_pipeline_context = Ok r ∧
    group ∈ r ∧
    node ∈ ComposableNodeContainer.composable_node_descriptions group ∧
    ComposableNode.plugin node ≠ "image_tools::Cam2Image" ∧
    JULIASET_PARAMS MAX_ITERATION_shipped = Ok JP ∧
    merge_last_wins JP !! "boundary_radius" = Some (VFloat 25.0%float) ∧
    merge_last_wins (ComposableNode.parameters node) !! "boundary_radius"
    = Some (VFloat 25.0%float).
Proof.
  destruct profiled_pipeline_map_node as (pipeline & composite & JP & Hrun & HJP & Hnode).
  assert (merge_last_wins JP !! "boundary_radius" = Some (VFloat 25.0%float)) as Hkey.
  { apply JULIASET_PARAMS_Ok in HJP as (f & _ & ->). vm_compute. reflexivity. }
  exists [pipeline; composite], pipeline, (map_node JP), JP.
  split; [exact Hrun|]. split; [apply list_elem_of_here|]. split; [exact Hnode|].
  split; [discriminate|]. split; [exact HJP|]. split; [exact Hkey|].
  apply (shared_parameters_in_force "x86_64" literal_condition MAX_ITERATION_shipped
           profiled_pipeline_context [pipeline; composite] pipeline (map_node JP) JP);
    [exact Hrun|apply list_elem_of_here|exact Hnode|discriminate|exact HJP|exact Hkey].
Defined.


Lemma pipeline_broken_below_one_witness :
  ∃ r,
    0 ≤ 0 ∧
    launch_setup "x86_64" literal_condition 0 default_context = Ok r ∧
    ∃ pipeline composite capture colorize JP,
      r = [pipeline; composite] ∧
      ComposableNodeContainer.composable_node_descriptions pipeline
        = [capture; map_node JP; colorize] ∧
      ComposableNode.plugin colorize = "type_adapt_example::ColorizeNode" ∧
      remap "/image_in" colorize = Some "/image_out-1" ∧
      output_routes (ComposableNodeContainer.composable_node_descriptions pipeline)
        = ["/image_in"; "/image_out0"; "/pipeline/image_out"] ∧
      "/image_out-1"
        ∉ output_routes (ComposableNodeContainer.composable_node_descriptions pipeline).
Proof.
  destruct empty_chain_launch as (pipeline & composite & Hrun).
  exists [pipeline; composite].
  split; [by vm_compute|]. split; [exact Hrun|].
  apply (pipeline_broken_below_one "x86_64" literal_condition 0 default_context);
    [by vm_compute|exact Hrun].
Defined.


Lemma launch_description_failures_witness :
  LaunchDescription_visit
    (generate_launch_description "x86_64" literal_condition MAX_ITERATION_shipped)
    (mkLaunchContext {[ "resolution" := "2K" ]})
  = Err (KeyError "2K") ∧
  ((py_float MAX_ITERATION_shipped = Err (KeyError "2K")
    ∧ KeyError "2K" = OverflowError)
   ∨ (∃ name expression,
        name ∈ ["enable_mt"; "enable_nsys"] ∧
        launch_configurations (declared (mkLaunchContext {[ "resolution" := "2K" ]}))
          !! name = Some expression ∧
        (∀ given,
           launch_configurations (mkLaunchContext {[ "resolution" := "2K" ]}) !! name
           = Some given → expression = given) ∧
        literal_condition expression = Err (KeyError "2K"))
   ∨ (∃ resolution,
        launch_configurations (declared (mkLaunchContext {[ "resolution" := "2K" ]}))
          !! "resolution" = Some resolution ∧
        (∀ given,
           launch_configurations (mkLaunchContext {[ "resolution" := "2K" ]})
             !! "resolution" = Some given → resolution = given) ∧
        RESOLUTIONS !! resolution = None ∧
        KeyError "2K" = KeyError resolution)).
Proof.
  split; [vm_compute; reflexivity|].
  apply (launch_description_failures "x86_64" literal_condition MAX_ITERATION_shipped).
  vm_compute. reflexivity.
Defined.

Lemma build_profile_name_label_injective_witness :
  build_profile_name "x86_64" "run1" "pipeline" false "720p"
  = build_profile_name "x86_64" "run1" "pipeline" false "720p" ∧
  "run1" = "run1".
Proof.
  split; [reflexivity|].
  apply (build_profile_name_label_injective "x86_64" "run1" "run1"
           "pipeline" false "720p"); reflexivity.
Defined.

Lemma build_profile_name_identifies_run_witness :
  "composite" ∈ ["pipeline"; "composite"] ∧
  is_Some (RESOLUTIONS !! "4K") ∧
  build_profile_name "x86_64" "a-b" "composite" true "4K"
  = build_profile_name "x86_64" "a-b" "composite" true "4K" ∧
  ("a-b" = "a-b" ∧ "composite" = "composite" ∧ true = true ∧ "4K" = "4K").
Proof.
  assert (Hin : "composite" ∈ ["pipeline"; "composite"]).
  { compute_done. }
  assert (Hres : is_Some (RESOLUTIONS !! "4K")).
  { eexists. vm_compute. reflexivity. }
  split; [exact Hin|]. split; [exact Hres|]. split; [reflexivity|].
  apply (build_profile_name_identifies_run "x86_64" "a-b" "a-b"
           "composite" "composite" true true "4K" "4K");
    [exact Hin|exact Hin|exact Hres|exact Hres|reflexivity].
Defined.
